(** * Read-only content API (app.py): model and verified properties

    The program is a Flask application over five MongoDB collections
    accessed through mongoengine.  The embedding below keeps the shape of
    app.py: one record per document class, one function per route, and a
    small monad that threads the two effects the routes have, namely
    raising an exception and issuing commands to the document store. *)

From stdpp Require Import base option list strings gmap sorting.
From Stdlib Require Import ZArith Ascii String.

Local Open Scope string_scope.
Local Open Scope list_scope.
Local Open Scope Z_scope.

(** ** Identifiers (bson.ObjectId) *)

(** An ObjectId is twelve bytes; it is kept here in its canonical text form,
    the 24 lower-case hexadecimal digits that [str(oid)] prints. *)
Inductive ObjectId : Type := Oid (hex : string).

Definition ObjectId_str (o : ObjectId) : string :=
  match o with Oid h => h end.

#[global] Instance ObjectId_eq_dec : EqDecision ObjectId.
Proof. solve_decision. Defined.

#[global] Instance ObjectId_countable : Countable ObjectId.
Proof.
  refine (inj_countable' ObjectId_str Oid _). intros [h]. reflexivity.
Defined.

Definition ObjectId_eqb (a b : ObjectId) : bool :=
  String.eqb (ObjectId_str a) (ObjectId_str b).

(** One hexadecimal digit, folded to lower case ([bytes.fromhex] accepts
    both cases and yields the same byte). *)
Definition hex_lower (c : ascii) : option ascii :=
  let n := nat_of_ascii c in
  if ((48 <=? n) && (n <=? 57))%nat then Some c
  else if ((97 <=? n) && (n <=? 102))%nat then Some c
  else if ((65 <=? n) && (n <=? 70))%nat then Some (ascii_of_nat (n + 32))
  else None.

(** ASCII white space, which [bytes.fromhex] skips between bytes. *)
Definition is_space (c : ascii) : bool :=
  let n := nat_of_ascii c in
  ((9 <=? n) && (n <=? 13))%nat || (n =? 32)%nat.

(** [bytes.fromhex(s)], the result printed back in hexadecimal: every byte
    is two adjacent hexadecimal digits; white space may stand between
    bytes but not inside one. *)
Fixpoint fromhex (s : string) : option string :=
  match s with
  | EmptyString => Some EmptyString
  | String c rest =>
      if is_space c then fromhex rest
      else
        match rest with
        | EmptyString => None
        | String c2 rest2 =>
            match hex_lower c, hex_lower c2, fromhex rest2 with
            | Some a, Some b, Some r => Some (String a (String b r))
            | _, _, _ => None
            end
        end
  end.

(** [ObjectId(s)] for a [str] argument: the text must have 24 characters and
    [bytes.fromhex] must accept it, otherwise bson raises [InvalidId]. *)
Definition ObjectId_parse (s : string) : option ObjectId :=
  if (String.length s =? 24)%nat then Oid <$> fromhex s else None.

(** ** Documents (the MODELS section of app.py) *)

Module SubTopic.
Record t := mk {
  id : ObjectId;
  name : string;
  subject : string;
  v1_generated : bool;
  v2_cleaned : bool;
  v3_verified : bool;
  v4_finalized : bool
}.
End SubTopic.

Module UPSCSyllabus.
Record t := mk {
  id : ObjectId;
  exam : string;
  stage : string;
  paper : string;
  subject : string;
  subtopics : list ObjectId;
  v1 : bool;
  v2 : bool;
  v3 : bool;
  v4 : bool
}.
End UPSCSyllabus.

Module MicroUnit.
Record t := mk {
  id : ObjectId;
  name : string;
  subject : string;
  subtopic : ObjectId;
  order : Z;
  v5_generated : bool;
  v6_verified : bool;
  v6_finalized : bool
}.
End MicroUnit.

Module MicroUnitNote.
Record t := mk {
  id : ObjectId;
  micro_unit : ObjectId;
  content : string;
  word_count : option Z;
  image_required : bool;
  image_reasons : list string;
  v1_generated : bool;
  v1_verified : bool
}.
End MicroUnitNote.

Module MCQOptionDoc.
Record t := mk {
  option : string;
  text : string
}.
End MCQOptionDoc.

Module IndividualMCQDoc.
Record t := mk {
  question_number : Z;
  question_text : string;
  options : list MCQOptionDoc.t;
  correct_answer : string;
  explanation : string;
  additional_notes : option string;
  image_required : bool;
  image_reason : option string
}.
End IndividualMCQDoc.

Module MicroUnitMCQ.
Record t := mk {
  id : ObjectId;
  micro_unit : ObjectId;
  mcq_count : Z;
  mcqs : list IndividualMCQDoc.t;
  remarks : option string;
  commentary : option string;
  content : string;
  image_required : bool;
  image_reasons : list string;
  v1_generated : bool;
  v1_verified : bool
}.
End MicroUnitMCQ.

(** The database: every collection in its storage (insertion) order. *)
Inductive collection : Type :=
  | coll_subtopics
  | coll_upsc_syllabus
  | coll_micro_units
  | coll_micro_unit_notes
  | coll_micro_unit_mcqs.

#[global] Instance collection_eq_dec : EqDecision collection.
Proof. solve_decision. Defined.

Record Store := mkStore {
  db_subtopics : list SubTopic.t;
  db_upsc_syllabus : list UPSCSyllabus.t;
  db_micro_units : list MicroUnit.t;
  db_micro_unit_notes : list MicroUnitNote.t;
  db_micro_unit_mcqs : list MicroUnitMCQ.t
}.

(** ** Queries *)

(** Scalar values a filter compares a field with. *)
Inductive qvalue : Type :=
  | QStr (s : string)
  | QBool (b : bool)
  | QInt (z : Z)
  | QId (o : ObjectId).

#[global] Instance qvalue_eq_dec : EqDecision qvalue.
Proof. solve_decision. Defined.

Definition qvalue_eqb (a b : qvalue) : bool :=
  match a, b with
  | QStr x, QStr y => String.eqb x y
  | QBool x, QBool y => Bool.eqb x y
  | QInt x, QInt y => Z.eqb x y
  | QId x, QId y => ObjectId_eqb x y
  | _, _ => false
  end.

(** [field=value] and [field__in=values], the two filter forms app.py uses. *)
Inductive cond : Type :=
  | FEq (field : string) (v : qvalue)
  | FIn (field : string) (vs : list qvalue).

Definition query := list cond.

Section Matching.
Context {D : Type} (getf : D -> string -> option qvalue).

Definition cond_holds (d : D) (c : cond) : bool :=
  match c with
  | FEq f v =>
      match getf d f with Some v' => qvalue_eqb v' v | None => false end
  | FIn f vs =>
      match getf d f with
      | Some v' => existsb (qvalue_eqb v') vs
      | None => false
      end
  end.

Definition matches (q : query) (d : D) : bool := forallb (cond_holds d) q.

Definition select (q : query) (docs : list D) : list D :=
  List.filter (matches q) docs.
End Matching.

(** Field access by database name, one function per document class. *)
Definition SubTopic_field (d : SubTopic.t) (f : string) : option qvalue :=
  if String.eqb f "id" then Some (QId (SubTopic.id d))
  else if String.eqb f "name" then Some (QStr (SubTopic.name d))
  else if String.eqb f "subject" then Some (QStr (SubTopic.subject d))
  else if String.eqb f "v1_generated" then Some (QBool (SubTopic.v1_generated d))
  else if String.eqb f "v2_cleaned" then Some (QBool (SubTopic.v2_cleaned d))
  else if String.eqb f "v3_verified" then Some (QBool (SubTopic.v3_verified d))
  else if String.eqb f "v4_finalized" then Some (QBool (SubTopic.v4_finalized d))
  else None.

Definition UPSCSyllabus_field (d : UPSCSyllabus.t) (f : string) : option qvalue :=
  if String.eqb f "id" then Some (QId (UPSCSyllabus.id d))
  else if String.eqb f "exam" then Some (QStr (UPSCSyllabus.exam d))
  else if String.eqb f "stage" then Some (QStr (UPSCSyllabus.stage d))
  else if String.eqb f "paper" then Some (QStr (UPSCSyllabus.paper d))
  else if String.eqb f "subject" then Some (QStr (UPSCSyllabus.subject d))
  else if String.eqb f "v1" then Some (QBool (UPSCSyllabus.v1 d))
  else if String.eqb f "v2" then Some (QBool (UPSCSyllabus.v2 d))
  else if String.eqb f "v3" then Some (QBool (UPSCSyllabus.v3 d))
  else if String.eqb f "v4" then Some (QBool (UPSCSyllabus.v4 d))
  else None.

Definition MicroUnit_field (d : MicroUnit.t) (f : string) : option qvalue :=
  if String.eqb f "id" then Some (QId (MicroUnit.id d))
  else if String.eqb f "name" then Some (QStr (MicroUnit.name d))
  else if String.eqb f "subject" then Some (QStr (MicroUnit.subject d))
  else if String.eqb f "subtopic" then Some (QId (MicroUnit.subtopic d))
  else if String.eqb f "order" then Some (QInt (MicroUnit.order d))
  else if String.eqb f "v5_generated" then Some (QBool (MicroUnit.v5_generated d))
  else if String.eqb f "v6_verified" then Some (QBool (MicroUnit.v6_verified d))
  else if String.eqb f "v6_finalized" then Some (QBool (MicroUnit.v6_finalized d))
  else None.

Definition MicroUnitNote_field (d : MicroUnitNote.t) (f : string) : option qvalue :=
  if String.eqb f "id" then Some (QId (MicroUnitNote.id d))
  else if String.eqb f "micro_unit" then Some (QId (MicroUnitNote.micro_unit d))
  else if String.eqb f "content" then Some (QStr (MicroUnitNote.content d))
  else if String.eqb f "image_required" then Some (QBool (MicroUnitNote.image_required d))
  else if String.eqb f "v1_generated" then Some (QBool (MicroUnitNote.v1_generated d))
  else if String.eqb f "v1_verified" then Some (QBool (MicroUnitNote.v1_verified d))
  else None.

Definition MicroUnitMCQ_field (d : MicroUnitMCQ.t) (f : string) : option qvalue :=
  if String.eqb f "id" then Some (QId (MicroUnitMCQ.id d))
  else if String.eqb f "micro_unit" then Some (QId (MicroUnitMCQ.micro_unit d))
  else if String.eqb f "mcq_count" then Some (QInt (MicroUnitMCQ.mcq_count d))
  else if String.eqb f "content" then Some (QStr (MicroUnitMCQ.content d))
  else if String.eqb f "image_required" then Some (QBool (MicroUnitMCQ.image_required d))
  else if String.eqb f "v1_generated" then Some (QBool (MicroUnitMCQ.v1_generated d))
  else if String.eqb f "v1_verified" then Some (QBool (MicroUnitMCQ.v1_verified d))
  else None.

(** ** Effects: exceptions and store commands *)

(** The exceptions the routes can raise: mongoengine's [DoesNotExist],
    [MultipleObjectsReturned] and [ValidationError], and bson's
    [InvalidId]. *)
Inductive exn : Type :=
  | DoesNotExist | MultipleObjectsReturned | InvalidId | ValidationError.

Inductive result (A : Type) : Type :=
  | Ok (a : A)
  | Raise (e : exn).
Arguments Ok {A} a.
Arguments Raise {A} e.

(** What is sent to the database: a [find] (optionally sorted) or a
    [distinct], each on one collection with one filter. *)
Inductive command : Type :=
  | Find (c : collection) (q : query) (sort : option string)
  | Distinct (c : collection) (q : query) (field : string).

(** A computation yields a value or an exception, together with the
    commands it has sent, oldest first. *)
Definition M (A : Type) : Type := (result A * list command)%type.

Definition outcome {A} (m : M A) : result A := fst m.
Definition trace {A} (m : M A) : list command := snd m.

#[global] Instance M_ret : MRet M := fun A a => (Ok a, []).

#[global] Instance M_bind : MBind M := fun A B f m =>
  match m with
  | (Ok a, t) => let '(r, t') := f a in (r, t ++ t')
  | (Raise e, t) => (Raise e, t)
  end.

Definition raise {A} (e : exn) : M A := (Raise e, []).
Definition send (c : command) : M unit := (Ok tt, [c]).

(** A loop with an accumulator whose body may raise or query. *)
Fixpoint foldM {A B} (f : B -> A -> M B) (acc : B) (l : list A) : M B :=
  match l with
  | [] => mret acc
  | x :: rest => acc' ← f acc x; foldM f acc' rest
  end.

(** ** The mongoengine operations app.py calls *)

(** Stable insertion sort on an integer key, the [order_by] of a find.
    (MongoDB leaves the order of equal keys open; storage order is kept.) *)
Section Sorting.
Context {D : Type} (key : D -> Z).

Fixpoint insert_by (x : D) (l : list D) : list D :=
  match l with
  | [] => [x]
  | y :: rest => if key x <=? key y then x :: y :: rest
                 else y :: insert_by x rest
  end.

Definition sort_by (l : list D) : list D :=
  fold_right insert_by [] l.

Definition key_le (a b : D) : Prop := key a <= key b.
End Sorting.

Section QuerySet.
Context {D : Type} (c : collection) (getf : D -> string -> option qvalue).

Definition int_key (field : string) (d : D) : Z :=
  match getf d field with Some (QInt z) => z | _ => 0 end.

(** [Doc.objects(q)], evaluated (iterated) once and then cached. *)
Definition objects (docs : list D) (q : query) : M (list D) :=
  _ ← send (Find c q None);
  mret (select getf q docs).

(** [Doc.objects(q).order_by(field)] *)
Definition objects_order_by (docs : list D) (q : query) (field : string)
  : M (list D) :=
  _ ← send (Find c q (Some field));
  mret (sort_by (int_key field) (select getf q docs)).

(** [Doc.objects.get(q)]: exactly one match, or an exception. *)
Definition get (docs : list D) (q : query) : M D :=
  _ ← send (Find c q None);
  match select getf q docs with
  | [] => raise DoesNotExist
  | [d] => mret d
  | _ :: _ :: _ => raise MultipleObjectsReturned
  end.

(** The raw values of [Doc.objects(q).distinct(field)], in order of
    first occurrence. *)
Definition distinct_raw (docs : list D) (q : query) (field : string)
  : M (list qvalue) :=
  _ ← send (Distinct c q field);
  mret (remove_dups (omap (fun d => getf d field) (select getf q docs))).
End QuerySet.

(** ** Python objects that end up in a [set] *)

(** [distinct] on a reference field does not return identifiers: with
    mongoengine's default auto-dereferencing, the raw identifiers are
    fetched in bulk and replaced by the referenced documents (a reference
    that resolves to nothing stays a [DBRef]).  A route then tests
    membership of an identifier or of a document in a [set] of these
    objects, so the three kinds of object, their [__hash__] and their
    [__eq__] are modelled. *)
Inductive pyobj : Type :=
  | PyObjectId (o : ObjectId)
  | PyMicroUnit (d : MicroUnit.t)
  | PyDBRef (c : collection) (o : ObjectId).

Inductive pyhash : Type :=
  | HashOfId (o : ObjectId)
  | HashOfRef (c : collection) (o : ObjectId).

(** [Document.__hash__] is [hash(self.pk)]; a [DBRef] hashes its
    collection together with its identifier. *)
Definition py_hash (x : pyobj) : pyhash :=
  match x with
  | PyObjectId o => HashOfId o
  | PyMicroUnit d => HashOfId (MicroUnit.id d)
  | PyDBRef c o => HashOfRef c o
  end.

Definition pyhash_eqb (a b : pyhash) : bool :=
  match a, b with
  | HashOfId x, HashOfId y => ObjectId_eqb x y
  | HashOfRef c x, HashOfRef c' y => bool_decide (c = c') && ObjectId_eqb x y
  | _, _ => false
  end.

(** [a == b].  [ObjectId.__eq__] and [DBRef.__eq__] answer only for their
    own class; [BaseDocument.__eq__] compares identifiers with a document of
    the same class, accepts a [DBRef] to its own collection and is [False]
    for anything else. *)
Definition py_eq (a b : pyobj) : bool :=
  match a, b with
  | PyObjectId x, PyObjectId y => ObjectId_eqb x y
  | PyMicroUnit d, PyMicroUnit d' =>
      ObjectId_eqb (MicroUnit.id d) (MicroUnit.id d')
  | PyMicroUnit d, PyDBRef c o | PyDBRef c o, PyMicroUnit d =>
      bool_decide (c = coll_micro_units) && ObjectId_eqb (MicroUnit.id d) o
  | PyDBRef c x, PyDBRef c' y => bool_decide (c = c') && ObjectId_eqb x y
  | _, _ => false
  end.

(** [x in s] for a hash set: equal hash, then [==]. *)
Definition py_in (x : pyobj) (s : list pyobj) : bool :=
  existsb (fun e => pyhash_eqb (py_hash e) (py_hash x) && py_eq e x) s.

(** [set(iterable)]: later equal elements are dropped. *)
Definition py_set (l : list pyobj) : list pyobj :=
  fold_left (fun s x => if py_in x s then s else s ++ [x]) l [].

Definition qvalue_ids (vs : list qvalue) : list ObjectId :=
  omap (fun v => match v with QId o => Some o | _ => None end) vs.

Definition find_micro_unit (st : Store) (o : ObjectId) : option MicroUnit.t :=
  List.find (fun d => ObjectId_eqb (MicroUnit.id d) o) (db_micro_units st).

(** Dereferencing the values of [distinct("micro_unit")]: one bulk find on
    the micro-units collection when there is anything to resolve. *)
Definition dereference_micro_units (st : Store) (vs : list qvalue)
  : M (list pyobj) :=
  let ids := qvalue_ids vs in
  _ ← match ids with
      | [] => mret tt
      | _ :: _ => send (Find coll_micro_units [FIn "id" (QId <$> ids)] None)
      end;
  mret ((fun o => match find_micro_unit st o with
                  | Some d => PyMicroUnit d
                  | None => PyDBRef coll_micro_units o
                  end) <$> ids).

(** [MicroUnitNote.objects(micro_unit__in=units).distinct("micro_unit")] *)
Definition noted_micro_units (st : Store) (units : list MicroUnit.t)
  : M (list pyobj) :=
  raw ← distinct_raw coll_micro_unit_notes MicroUnitNote_field
          (db_micro_unit_notes st)
          [FIn "micro_unit" ((fun u => QId (MicroUnit.id u)) <$> units)]
          "micro_unit";
  dereference_micro_units st raw.

(** [mu.subtopic]: the lazy dereference of a reference attribute, one find
    by identifier; mongoengine raises [DoesNotExist] when nothing is there. *)
Definition MicroUnit_subtopic (st : Store) (mu : MicroUnit.t) : M SubTopic.t :=
  _ ← send (Find coll_subtopics [FEq "id" (QId (MicroUnit.subtopic mu))] None);
  match List.find (fun s => ObjectId_eqb (SubTopic.id s) (MicroUnit.subtopic mu))
                  (db_subtopics st) with
  | Some s => mret s
  | None => raise DoesNotExist
  end.

(** [ObjectId(text)] *)
Definition ObjectId_new (text : string) : M ObjectId :=
  match ObjectId_parse text with
  | Some o => mret o
  | None => raise InvalidId
  end.

(** A reference field queried with a plain value: [ReferenceField.to_mongo]
    hands the value to [ObjectIdField.to_mongo], which turns a failed
    [ObjectId(str(value))] into a [ValidationError]. *)
Definition ReferenceField_to_mongo (text : string) : M ObjectId :=
  match ObjectId_parse text with
  | Some o => mret o
  | None => raise ValidationError
  end.

(** ** JSON bodies *)

Module SyllabusJson.
Record t := mk { stage : string; paper : string; exam : string }.
End SyllabusJson.

Module SubtopicJson.
Record t := mk { name : string; has_notes : bool }.
End SubtopicJson.

Module MicroUnitJson.
Record t := mk {
  id : string;
  name : string;
  order : Z;
  has_notes : bool
}.
End MicroUnitJson.

Module NoteJson.
Record t := mk { micro_unit_id : string; content : string }.
End NoteJson.

Module OptionJson.
Record t := mk { option : string; text : string }.
End OptionJson.

Module QuestionJson.
Record t := mk {
  question_number : Z;
  question_text : string;
  options : list OptionJson.t;
  correct_answer : string;
  explanation : string;
  additional_notes : option string;
  image_required : bool;
  image_reason : option string
}.
End QuestionJson.

Module McqsJson.
Record t := mk { mcq_count : Z; mcqs : list QuestionJson.t }.
End McqsJson.

(** ** Routes (the READ-ONLY section of app.py) *)

(** Each view is the function of app.py with the same name; [jsonify] is
    left implicit (the value returned is the JSON body), and the [print]
    calls, which only write to the server's standard output, are omitted. *)

(** [/subjects] *)
Definition list_subjects (st : Store) : M (list qvalue) :=
  subjects ← distinct_raw coll_upsc_syllabus UPSCSyllabus_field
               (db_upsc_syllabus st) [FEq "v4" (QBool true)] "subject";
  mret subjects.

(** [/syllabus/<subject>] *)
Definition syllabus_by_subject (st : Store) (subject : string)
  : M (list SyllabusJson.t) :=
  syllabus ← objects coll_upsc_syllabus UPSCSyllabus_field
               (db_upsc_syllabus st)
               [FEq "subject" (QStr subject); FEq "v4" (QBool true)];
  mret ((fun s => SyllabusJson.mk (UPSCSyllabus.stage s)
                    (UPSCSyllabus.paper s) (UPSCSyllabus.exam s))
        <$> syllabus).

(** The body of the [for mu in micro_units] loop of [/subtopics]. *)
Definition mark_subtopic (st : Store) (noted_units : list pyobj)
    (subtopic_has_notes : gmap ObjectId bool) (mu : MicroUnit.t)
  : M (gmap ObjectId bool) :=
  if py_in (PyObjectId (MicroUnit.id mu)) noted_units then
    s ← MicroUnit_subtopic st mu;
    mret (<[SubTopic.id s := true]> subtopic_has_notes)
  else mret subtopic_has_notes.

(** [/subtopics/<subject>] *)
Definition subtopics_by_subject (st : Store) (subject : string)
  : M (list SubtopicJson.t) :=
  subtopics ← objects coll_subtopics SubTopic_field (db_subtopics st)
                [FEq "subject" (QStr subject)];
  micro_units ← objects coll_micro_units MicroUnit_field (db_micro_units st)
                  [FIn "subtopic" ((fun s => QId (SubTopic.id s)) <$> subtopics)];
  noted ← noted_micro_units st micro_units;
  let noted_units := py_set noted in
  subtopic_has_notes ← foldM (mark_subtopic st noted_units) ∅ micro_units;
  mret ((fun s => SubtopicJson.mk (SubTopic.name s)
                    (default false (subtopic_has_notes !! SubTopic.id s)))
        <$> subtopics).

(** [/micro-units/<subject>/<subtopic_name>] *)
Definition micro_units_by_subtopic (st : Store) (subject subtopic_name : string)
  : M (list MicroUnitJson.t) :=
  subtopic ← get coll_subtopics SubTopic_field (db_subtopics st)
               [FEq "name" (QStr subtopic_name);
                FEq "subject" (QStr subject);
                FEq "v4_finalized" (QBool true)];
  units ← objects_order_by coll_micro_units MicroUnit_field (db_micro_units st)
            [FEq "subtopic" (QId (SubTopic.id subtopic));
             FEq "v6_finalized" (QBool true)]
            "order";
  noted ← noted_micro_units st units;
  let notes_map := py_set noted in
  mret ((fun u => MicroUnitJson.mk (ObjectId_str (MicroUnit.id u))
                    (MicroUnit.name u) (MicroUnit.order u)
                    (py_in (PyMicroUnit u) notes_map))
        <$> units).

(** [/notes/<micro_unit_id>] *)
Definition notes_by_micro_unit (st : Store) (micro_unit_id : string)
  : M NoteJson.t :=
  oid ← ObjectId_new micro_unit_id;
  micro_unit ← get coll_micro_units MicroUnit_field (db_micro_units st)
                 [FEq "id" (QId oid)];
  note ← get coll_micro_unit_notes MicroUnitNote_field (db_micro_unit_notes st)
           [FEq "micro_unit" (QId (MicroUnit.id micro_unit))];
  mret (NoteJson.mk micro_unit_id (MicroUnitNote.content note)).

Definition option_json (o : MCQOptionDoc.t) : OptionJson.t :=
  OptionJson.mk (MCQOptionDoc.option o) (MCQOptionDoc.text o).

Definition question_json (q : IndividualMCQDoc.t) : QuestionJson.t :=
  QuestionJson.mk
    (IndividualMCQDoc.question_number q)
    (IndividualMCQDoc.question_text q)
    (option_json <$> IndividualMCQDoc.options q)
    (IndividualMCQDoc.correct_answer q)
    (IndividualMCQDoc.explanation q)
    (IndividualMCQDoc.additional_notes q)
    (IndividualMCQDoc.image_required q)
    (IndividualMCQDoc.image_reason q).

(** [/mcqs/<micro_unit_id>] *)
Definition mcqs_by_micro_unit (st : Store) (micro_unit_id : string)
  : M McqsJson.t :=
  ref ← ReferenceField_to_mongo micro_unit_id;
  mcq ← get coll_micro_unit_mcqs MicroUnitMCQ_field (db_micro_unit_mcqs st)
          [FEq "micro_unit" (QId ref)];
  mret (McqsJson.mk (MicroUnitMCQ.mcq_count mcq)
          (question_json <$> MicroUnitMCQ.mcqs mcq)).

(** ** What the client sees *)

(** The application registers no error handler and none of the exceptions
    above is an HTTP exception, so Flask answers a view that returns with
    200 and a view that raises with 500 (Internal Server Error). *)
Definition http_status {A} (m : M A) : Z :=
  match outcome m with
  | Ok _ => 200
  | Raise _ => 500
  end.

(** ** The constraints the models declare *)

(** Identifiers are primary keys; [subtopics] has a unique index on
    (name, subject); the [micro_unit] reference of a note and of an MCQ set
    is declared [unique=True]. *)
Record indexes_hold (st : Store) : Prop := {
  unique_subtopic_ids : NoDup (SubTopic.id <$> db_subtopics st);
  unique_micro_unit_ids : NoDup (MicroUnit.id <$> db_micro_units st);
  unique_subtopic_names :
    NoDup ((fun s => (SubTopic.name s, SubTopic.subject s)) <$> db_subtopics st);
  unique_note_refs :
    NoDup (MicroUnitNote.micro_unit <$> db_micro_unit_notes st);
  unique_mcq_refs :
    NoDup (MicroUnitMCQ.micro_unit <$> db_micro_unit_mcqs st)
}.

(** ** Observations used in the statements *)

(** A client can tell a missing resource from any other failure only by the
    status 404, and a rejected request only by the status 400. *)
Definition client_sees_not_found {A} (m : M A) : Prop := http_status m = 404.
Definition client_sees_bad_request {A} (m : M A) : Prop := http_status m = 400.

(** The view returned a body. *)
Definition completes {A} (m : M A) : Prop := exists a, outcome m = Ok a.

(** The view raised and nothing caught the exception: the client receives
    the internal-error status. *)
Definition unhandled_internal_error {A} (m : M A) : Prop :=
  exists e, outcome m = Raise e /\ http_status m = 500.

(** The view returned (status 200), or it raised the not-found exception,
    which nothing catches (status 500). *)
Definition completes_or_unhandled_not_found {A} (m : M A) : Prop :=
  (completes m /\ http_status m = 200)
  \/ (outcome m = Raise DoesNotExist /\ http_status m = 500).

Definition command_collection (cmd : command) : collection :=
  match cmd with
  | Find c _ _ => c
  | Distinct c _ _ => c
  end.

(** The commands of a trace that address one collection. *)
Definition commands_on (c : collection) (t : list command) : list command :=
  List.filter (fun cmd => bool_decide (command_collection cmd = c)) t.

(** A micro-unit whose [subtopic] reference resolves to no stored subtopic. *)
Definition dangling_subtopic (st : Store) (mu : MicroUnit.t) : Prop :=
  mu ∈ db_micro_units st
  /\ MicroUnit.subtopic mu ∉ SubTopic.id <$> db_subtopics st.

(** ** Fixtures *)

Module Fixture.
Definition oid_syllabus := Oid "64a000000000000000000001".
Definition oid_ancient := Oid "64a000000000000000000010".
Definition oid_mauryas := Oid "64a000000000000000000021".
Definition oid_guptas := Oid "64a000000000000000000022".
Definition oid_note := Oid "64a000000000000000000031".
Definition oid_mcq := Oid "64a000000000000000000041".
Definition oid_missing := Oid "64a0000000000000000000ff".

Definition history : UPSCSyllabus.t :=
  UPSCSyllabus.mk oid_syllabus "UPSC Civil Services Examination"
    "Prelims" "GS1" "History" [oid_ancient] false false false true.

Definition ancient_india : SubTopic.t :=
  SubTopic.mk oid_ancient "Ancient India" "History" true true true true.

Definition mauryas : MicroUnit.t :=
  MicroUnit.mk oid_mauryas "Mauryas" "History" oid_ancient 2 true true true.

Definition guptas : MicroUnit.t :=
  MicroUnit.mk oid_guptas "Guptas" "History" oid_ancient 1 true true true.

Definition guptas_note : MicroUnitNote.t :=
  MicroUnitNote.mk oid_note oid_guptas "The Gupta empire" None false []
    true true.

(** The scenario of the specification: two finalized units stored out of
    order under one finalized subtopic, a note for the second only. *)
Definition store : Store :=
  mkStore [ancient_india] [history] [mauryas; guptas] [guptas_note] [].

Definition question : IndividualMCQDoc.t :=
  IndividualMCQDoc.mk 1 "Who founded the Gupta empire?"
    [MCQOptionDoc.mk "A" "Sri Gupta"; MCQOptionDoc.mk "B" "Ashoka"]
    "A" "Sri Gupta is the first known ruler." None false None.

(** An MCQ set whose stored count disagrees with its question list and
    whose micro-unit does not exist. *)
Definition orphan_mcq : MicroUnitMCQ.t :=
  MicroUnitMCQ.mk oid_mcq oid_missing 5 [question] None None "mcq text"
    false [] true false.

Definition store_mcq : Store :=
  mkStore [ancient_india] [history] [mauryas; guptas] [guptas_note]
    [orphan_mcq].

Definition oid_stray := Oid "64a000000000000000000023".
Definition oid_stray_note := Oid "64a000000000000000000032".

(** A micro-unit under a subtopic that does not exist, and a note for a
    micro-unit that does not exist. *)
Definition stray : MicroUnit.t :=
  MicroUnit.mk oid_stray "Stray" "History" oid_missing 0 true true true.

Definition stray_note : MicroUnitNote.t :=
  MicroUnitNote.mk oid_stray_note oid_missing "lost" None false []
    true false.

Definition store_dangling : Store :=
  mkStore [ancient_india] [history] [mauryas; guptas; stray]
    [guptas_note; stray_note] [orphan_mcq].

Definition oid_harsha := Oid "64a000000000000000000024".
Definition oid_harsha_note := Oid "64a000000000000000000033".

(** A micro-unit that is generated but not finalized, with a note. *)
Definition harsha : MicroUnit.t :=
  MicroUnit.mk oid_harsha "Harsha" "History" oid_ancient 3 true false false.

Definition harsha_note : MicroUnitNote.t :=
  MicroUnitNote.mk oid_harsha_note oid_harsha "Draft on Harsha" None false []
    true false.

Definition store_draft : Store :=
  mkStore [ancient_india] [history] [mauryas; guptas; harsha]
    [guptas_note; harsha_note] [].
End Fixture.

(** ** Names for the queries and intermediate values of the routes *)

Definition py_match (e x : pyobj) : bool :=
  pyhash_eqb (py_hash e) (py_hash x) && py_eq e x.

Definition dereferenced (st : Store) (o : ObjectId) : pyobj :=
  match find_micro_unit st o with
  | Some d => PyMicroUnit d
  | None => PyDBRef coll_micro_units o
  end.

Definition note_query (units : list MicroUnit.t) : query :=
  [FIn "micro_unit" ((fun u => QId (MicroUnit.id u)) <$> units)].

(** The identifiers of the notes that reference one of [units]. *)
Definition noted_ids (st : Store) (units : list MicroUnit.t) : list ObjectId :=
  qvalue_ids
    (remove_dups
       (omap (fun d => MicroUnitNote_field d "micro_unit")
          (select MicroUnitNote_field (note_query units)
             (db_micro_unit_notes st)))).

Definition subject_query (subject : string) : query :=
  [FEq "subject" (QStr subject)].

Definition subtopics_of (st : Store) (subject : string) : list SubTopic.t :=
  select SubTopic_field (subject_query subject) (db_subtopics st).

Definition micro_units_of (st : Store) (subject : string) : list MicroUnit.t :=
  select MicroUnit_field
    [FIn "subtopic" ((fun s => QId (SubTopic.id s)) <$> subtopics_of st subject)]
    (db_micro_units st).

Definition subtopic_query (subject subtopic_name : string) : query :=
  [FEq "name" (QStr subtopic_name);
   FEq "subject" (QStr subject);
   FEq "v4_finalized" (QBool true)].

Definition units_query (subtopic : SubTopic.t) : query :=
  [FEq "subtopic" (QId (SubTopic.id subtopic));
   FEq "v6_finalized" (QBool true)].

Definition units_of (st : Store) (subtopic : SubTopic.t) : list MicroUnit.t :=
  sort_by (int_key MicroUnit_field "order")
    (select MicroUnit_field (units_query subtopic) (db_micro_units st)).

Definition micro_unit_json (st : Store) (units : list MicroUnit.t)
    (u : MicroUnit.t) : MicroUnitJson.t :=
  MicroUnitJson.mk (ObjectId_str (MicroUnit.id u)) (MicroUnit.name u)
    (MicroUnit.order u)
    (py_in (PyMicroUnit u) (py_set (dereferenced st <$> noted_ids st units))).

Definition order_le (a b : MicroUnitJson.t) : Prop :=
  MicroUnitJson.order a <= MicroUnitJson.order b.

Definition id_query (o : ObjectId) : query := [FEq "id" (QId o)].
Definition ref_query (o : ObjectId) : query := [FEq "micro_unit" (QId o)].

Definition mcqs_json (mcq : MicroUnitMCQ.t) : McqsJson.t :=
  McqsJson.mk (MicroUnitMCQ.mcq_count mcq)
    (question_json <$> MicroUnitMCQ.mcqs mcq).

(** * Properties *)

(** ** Equality tests *)

Lemma ObjectId_eqb_eq (a b : ObjectId) : ObjectId_eqb a b = true <-> a = b.
Proof.
  destruct a as [x], b as [y]. unfold ObjectId_eqb. simpl.
  rewrite String.eqb_eq. split; congruence.
Qed.

Lemma ObjectId_eqb_refl (a : ObjectId) : ObjectId_eqb a a = true.
Proof. by apply ObjectId_eqb_eq. Qed.

Lemma qvalue_eqb_eq (a b : qvalue) : qvalue_eqb a b = true <-> a = b.
Proof.
  destruct a, b; simpl; try (split; [discriminate | congruence]).
  - rewrite String.eqb_eq. split; congruence.
  - rewrite Bool.eqb_true_iff. split; congruence.
  - rewrite Z.eqb_eq. split; congruence.
  - rewrite ObjectId_eqb_eq. split; congruence.
Qed.

Lemma existsb_qvalue_eqb (v : qvalue) (vs : list qvalue) :
  existsb (qvalue_eqb v) vs = true <-> v ∈ vs.
Proof.
  rewrite existsb_exists, list_elem_of_In. split.
  - intros (w & Hw & Heq). apply qvalue_eqb_eq in Heq. by subst.
  - intros Hin. exists v. split; [done | by apply qvalue_eqb_eq].
Qed.

Lemma elem_of_select {D} (getf : D -> string -> option qvalue) q docs d :
  d ∈ select getf q docs <-> d ∈ docs /\ matches getf q d = true.
Proof. unfold select. by rewrite !list_elem_of_In, filter_In. Qed.

(** ** The monad *)

Lemma outcome_bind {A B} (m : M A) (f : A -> M B) :
  outcome (m ≫= f) =
  match outcome m with Ok a => outcome (f a) | Raise e => Raise e end.
Proof.
  destruct m as [[a | e] t]; simpl; [| done].
  unfold mbind, M_bind. by destruct (f a).
Qed.

Lemma trace_bind {A B} (m : M A) (f : A -> M B) :
  trace (m ≫= f) =
  match outcome m with
  | Ok a => trace m ++ trace (f a)
  | Raise e => trace m
  end.
Proof.
  destruct m as [[a | e] t]; simpl; [| done].
  unfold mbind, M_bind. by destruct (f a).
Qed.

Lemma M_ret_bind {A B} (a : A) (f : A -> M B) : mret a ≫= f = f a.
Proof. unfold mbind, M_bind, mret, M_ret. by destruct (f a). Qed.

(** ** Listing subjects *)

Lemma matches_v4 (d : UPSCSyllabus.t) :
  matches UPSCSyllabus_field [FEq "v4" (QBool true)] d = true
  <-> UPSCSyllabus.v4 d = true.
Proof.
  unfold matches. simpl. rewrite andb_true_r.
  change (UPSCSyllabus_field d "v4") with (Some (QBool (UPSCSyllabus.v4 d))).
  simpl. by destruct (UPSCSyllabus.v4 d).
Qed.

(** C6. The body of [/subjects] is a duplicate-free list that holds the
    string S exactly when some syllabus document has subject S and v4
    set. *)
Theorem list_subjects_distinct_v4 (st : Store) :
  exists subjects,
    outcome (list_subjects st) = Ok subjects
    /\ NoDup subjects
    /\ (forall v, v ∈ subjects -> exists S, v = QStr S)
    /\ forall S : string,
         QStr S ∈ subjects
         <-> exists d, d ∈ db_upsc_syllabus st
                       /\ UPSCSyllabus.subject d = S
                       /\ UPSCSyllabus.v4 d = true.
Proof.
  eexists. split; [reflexivity |]. split; [apply NoDup_remove_dups |].
  split.
  - intros v Hv. apply elem_of_remove_dups, list_elem_of_omap in Hv.
    destruct Hv as (d & _ & Hd).
    change (UPSCSyllabus_field d "subject")
      with (Some (QStr (UPSCSyllabus.subject d))) in Hd.
    exists (UPSCSyllabus.subject d). congruence.
  - intros S. rewrite elem_of_remove_dups, list_elem_of_omap. split.
    + intros (d & Hd & Hf). apply elem_of_select in Hd as [Hd Hm].
      change (UPSCSyllabus_field d "subject")
        with (Some (QStr (UPSCSyllabus.subject d))) in Hf.
      exists d. split; [done |]. split; [congruence | by apply matches_v4].
    + intros (d & Hd & HS & Hv). exists d. split.
      * apply elem_of_select. split; [done | by apply matches_v4].
      * subst S. reflexivity.
Qed.

(** ** Outcomes and traces of the store operations *)

Section QuerySetFacts.
Context {D : Type} (c : collection) (getf : D -> string -> option qvalue).

Lemma objects_eq docs q :
  objects c getf docs q = (Ok (select getf q docs), [Find c q None]).
Proof. reflexivity. Qed.

Lemma objects_order_by_eq docs q field :
  objects_order_by c getf docs q field =
  (Ok (sort_by (int_key getf field) (select getf q docs)),
   [Find c q (Some field)]).
Proof. reflexivity. Qed.

Lemma distinct_raw_eq docs q field :
  distinct_raw c getf docs q field =
  (Ok (remove_dups (omap (fun d => getf d field) (select getf q docs))),
   [Distinct c q field]).
Proof. reflexivity. Qed.

Lemma get_eq docs q :
  get c getf docs q =
  (match select getf q docs with
   | [] => Raise DoesNotExist
   | [d] => Ok d
   | _ :: _ :: _ => Raise MultipleObjectsReturned
   end, [Find c q None]).
Proof.
  unfold get. by destruct (select getf q docs) as [| d [| d' rest]].
Qed.
End QuerySetFacts.

(** ** Python set membership *)

Lemma py_in_exists (x : pyobj) (s : list pyobj) :
  py_in x s = true <-> exists e, e ∈ s /\ py_match e x = true.
Proof.
  unfold py_in. rewrite existsb_exists.
  by setoid_rewrite list_elem_of_In.
Qed.

Lemma py_match_trans (e x y : pyobj) :
  py_match e x = true -> py_match x y = true -> py_match e y = true.
Proof.
  unfold py_match.
  destruct e, x, y; simpl;
    rewrite ?andb_true_iff, ?bool_decide_eq_true, ?ObjectId_eqb_eq;
    try (intros; discriminate); try (intros [? ?]; discriminate);
    intuition (try discriminate; congruence).
Qed.

Lemma py_in_app (x : pyobj) (s1 s2 : list pyobj) :
  py_in x (s1 ++ s2) = py_in x s1 || py_in x s2.
Proof. apply existsb_app. Qed.

Lemma py_in_fold (y : pyobj) (l s : list pyobj) :
  py_in y (fold_left (fun s x => if py_in x s then s else s ++ [x]) l s)
  = py_in y s || py_in y l.
Proof.
  revert s. induction l as [| x l IH]; intros s; simpl.
  - by rewrite orb_false_r.
  - rewrite IH. destruct (py_in x s) eqn:Hx.
    + fold (py_match x y). destruct (py_in y s) eqn:Hy; [done |]. simpl.
      destruct (py_match x y) eqn:Hxy; [| done]. exfalso.
      apply py_in_exists in Hx as (e & He & Hex).
      assert (py_in y s = true) as Hys.
      { apply py_in_exists. exists e. split; [done |].
        by apply (py_match_trans e x y). }
      congruence.
    + rewrite py_in_app. simpl. fold (py_match x y).
      rewrite orb_false_r. by rewrite orb_assoc.
Qed.

(** Membership in [set(l)] is membership in [l]. *)
Lemma py_in_py_set (y : pyobj) (l : list pyobj) :
  py_in y (py_set l) = py_in y l.
Proof. unfold py_set. by rewrite py_in_fold. Qed.

(** ** The objects [distinct("micro_unit")] returns *)

Lemma noted_micro_units_outcome st units :
  outcome (noted_micro_units st units) = Ok (dereferenced st <$> noted_ids st units).
Proof.
  unfold noted_micro_units. rewrite distinct_raw_eq, outcome_bind. simpl.
  unfold dereference_micro_units. rewrite outcome_bind.
  fold (note_query units). fold (noted_ids st units).
  by destruct (noted_ids st units).
Qed.

Lemma noted_micro_units_trace st units :
  trace (noted_micro_units st units) =
  Distinct coll_micro_unit_notes (note_query units) "micro_unit"
  :: match noted_ids st units with
     | [] => []
     | ids => [Find coll_micro_units [FIn "id" (QId <$> ids)] None]
     end.
Proof.
  unfold noted_micro_units. rewrite distinct_raw_eq, trace_bind. simpl.
  unfold dereference_micro_units. rewrite trace_bind.
  fold (note_query units). fold (noted_ids st units).
  by destruct (noted_ids st units).
Qed.

Lemma matches_note_query units (n : MicroUnitNote.t) :
  matches MicroUnitNote_field (note_query units) n = true
  <-> MicroUnitNote.micro_unit n ∈ MicroUnit.id <$> units.
Proof.
  unfold matches, note_query. simpl. rewrite andb_true_r.
  change (MicroUnitNote_field n "micro_unit")
    with (Some (QId (MicroUnitNote.micro_unit n))).
  rewrite existsb_qvalue_eqb, !list_elem_of_fmap. split.
  - intros (u & Hu & Hin). exists u. split; [congruence | done].
  - intros (u & Hu & Hin). exists u. split; [congruence | done].
Qed.

Lemma elem_of_qvalue_ids (o : ObjectId) (vs : list qvalue) :
  o ∈ qvalue_ids vs <-> QId o ∈ vs.
Proof.
  unfold qvalue_ids. rewrite list_elem_of_omap. split.
  - intros (v & Hv & Hm). destruct v; try discriminate. congruence.
  - intros Hin. by exists (QId o).
Qed.

(** An identifier is among the noted ones exactly when it is the reference
    of a stored note and belongs to one of the candidate units. *)
Lemma elem_of_noted_ids st units (o : ObjectId) :
  o ∈ noted_ids st units
  <-> (exists n, n ∈ db_micro_unit_notes st /\ MicroUnitNote.micro_unit n = o)
      /\ o ∈ MicroUnit.id <$> units.
Proof.
  unfold noted_ids.
  rewrite elem_of_qvalue_ids, elem_of_remove_dups, list_elem_of_omap. split.
  - intros (n & Hn & Hf). apply elem_of_select in Hn as [Hn Hm].
    change (MicroUnitNote_field n "micro_unit")
      with (Some (QId (MicroUnitNote.micro_unit n))) in Hf.
    assert (MicroUnitNote.micro_unit n = o) as <- by congruence.
    split; [by exists n | by apply matches_note_query].
  - intros [(n & Hn & <-) Hin]. exists n. split; [| done].
    apply elem_of_select. split; [done | by apply matches_note_query].
Qed.

Lemma find_micro_unit_Some st o d :
  find_micro_unit st o = Some d -> d ∈ db_micro_units st /\ MicroUnit.id d = o.
Proof.
  unfold find_micro_unit. intros H. apply find_some in H as [Hin Heq].
  split; [by apply list_elem_of_In | by apply ObjectId_eqb_eq].
Qed.

Lemma find_micro_unit_stored st u :
  u ∈ db_micro_units st ->
  exists d, find_micro_unit st (MicroUnit.id u) = Some d.
Proof.
  intros Hu. unfold find_micro_unit.
  destruct (List.find _ _) as [d |] eqn:Hf; [by exists d |].
  apply list_elem_of_In in Hu.
  pose proof (find_none _ _ Hf u Hu) as Hno. simpl in Hno.
  by rewrite ObjectId_eqb_refl in Hno.
Qed.

(** No identifier object is ever in the list [distinct] returns. *)
Lemma py_in_ObjectId_dereferenced st (o : ObjectId) (ids : list ObjectId) :
  py_in (PyObjectId o) (dereferenced st <$> ids) = false.
Proof.
  apply not_true_is_false. intros H.
  apply py_in_exists in H as (e & He & Hm).
  apply list_elem_of_fmap in He as (o' & -> & _).
  unfold dereferenced, py_match in Hm.
  destruct (find_micro_unit st o'); simpl in Hm;
    [by rewrite andb_false_r in Hm | done].
Qed.

(** A stored document is in that list exactly when its identifier is. *)
Lemma py_in_MicroUnit_dereferenced st (u : MicroUnit.t) (ids : list ObjectId) :
  u ∈ db_micro_units st ->
  py_in (PyMicroUnit u) (dereferenced st <$> ids) = true
  <-> MicroUnit.id u ∈ ids.
Proof.
  intros Hu. rewrite py_in_exists. split.
  - intros (e & He & Hm). apply list_elem_of_fmap in He as (o & -> & Ho).
    unfold dereferenced, py_match in Hm.
    destruct (find_micro_unit st o) as [d |] eqn:Hf; simpl in Hm; [| done].
    apply find_micro_unit_Some in Hf as [_ Hid].
    apply andb_true_iff in Hm as [_ Hm]. apply ObjectId_eqb_eq in Hm.
    congruence.
  - intros Hin. destruct (find_micro_unit_stored st u Hu) as [d Hf].
    exists (PyMicroUnit d). split.
    + apply list_elem_of_fmap. exists (MicroUnit.id u).
      split; [| done]. unfold dereferenced. by rewrite Hf.
    + apply find_micro_unit_Some in Hf as [_ Hid].
      unfold py_match. simpl. rewrite Hid. by rewrite ObjectId_eqb_refl.
Qed.

(** ** Listing subtopics *)

(** The test [mu.id in noted_units] never succeeds, so the loop leaves the
    dictionary as it found it and never dereferences [mu.subtopic]. *)
Lemma mark_subtopic_skips st (ids : list ObjectId) acc (mu : MicroUnit.t) :
  mark_subtopic st (py_set (dereferenced st <$> ids)) acc mu = mret acc.
Proof.
  unfold mark_subtopic.
  by rewrite py_in_py_set, py_in_ObjectId_dereferenced.
Qed.

Lemma foldM_mark_subtopic st (ids : list ObjectId) acc (mus : list MicroUnit.t) :
  foldM (mark_subtopic st (py_set (dereferenced st <$> ids))) acc mus
  = mret acc.
Proof.
  induction mus as [| mu mus IH]; cbn [foldM]; [done |].
  by rewrite mark_subtopic_skips, M_ret_bind.
Qed.

Lemma subtopics_by_subject_outcome st subject :
  outcome (subtopics_by_subject st subject) =
  Ok ((fun s => SubtopicJson.mk (SubTopic.name s) false)
      <$> subtopics_of st subject).
Proof.
  unfold subtopics_by_subject.
  rewrite outcome_bind, objects_eq. cbn [outcome fst].
  rewrite outcome_bind, objects_eq. cbn [outcome fst].
  rewrite outcome_bind, noted_micro_units_outcome.
  rewrite outcome_bind, foldM_mark_subtopic. cbn [outcome fst mret M_ret].
  reflexivity.
Qed.

Lemma subtopics_by_subject_trace st subject :
  trace (subtopics_by_subject st subject) =
  Find coll_subtopics (subject_query subject) None
  :: Find coll_micro_units
       [FIn "subtopic"
          ((fun s => QId (SubTopic.id s)) <$> subtopics_of st subject)] None
  :: trace (noted_micro_units st (micro_units_of st subject)).
Proof.
  unfold subtopics_by_subject.
  rewrite trace_bind, objects_eq. cbn [outcome trace fst snd].
  rewrite trace_bind, objects_eq. cbn [outcome trace fst snd].
  rewrite trace_bind, noted_micro_units_outcome.
  rewrite trace_bind, foldM_mark_subtopic. cbn [outcome trace fst snd mret M_ret].
  rewrite !app_nil_r. reflexivity.
Qed.

(** C1 (the code departs from the claim).  In the fixture the subtopic
    "Ancient India" owns the micro-unit "Guptas", and a note references
    "Guptas"; [/subtopics/History] nevertheless reports the subtopic with
    has_notes = false.  The route tests the identifier [mu.id] against a set
    of dereferenced documents, where [/micro-units] tests the document
    itself. *)
Theorem subtopics_by_subject_misses_notes :
  (Fixture.ancient_india ∈ db_subtopics Fixture.store
   /\ Fixture.guptas ∈ db_micro_units Fixture.store
   /\ MicroUnit.subtopic Fixture.guptas = SubTopic.id Fixture.ancient_india
   /\ Fixture.guptas_note ∈ db_micro_unit_notes Fixture.store
   /\ MicroUnitNote.micro_unit Fixture.guptas_note = MicroUnit.id Fixture.guptas)
  /\ outcome (subtopics_by_subject Fixture.store "History")
     = Ok [SubtopicJson.mk "Ancient India" false].
Proof.
  split; [| vm_compute; reflexivity].
  unfold Fixture.store. simpl. repeat split; set_solver.
Qed.

(** In every store and for every subject, each row of [/subtopics] carries
    has_notes = false. *)
Lemma subtopics_by_subject_has_notes st subject rows :
  outcome (subtopics_by_subject st subject) = Ok rows ->
  Forall (fun r => SubtopicJson.has_notes r = false) rows.
Proof.
  rewrite subtopics_by_subject_outcome. intros [= <-].
  apply Forall_fmap, Forall_forall. by intros s _.
Qed.

(** ** Listing micro-units *)

Lemma matches_subtopic_query subject subtopic_name (s : SubTopic.t) :
  matches SubTopic_field (subtopic_query subject subtopic_name) s = true
  <-> SubTopic.name s = subtopic_name
      /\ SubTopic.subject s = subject
      /\ SubTopic.v4_finalized s = true.
Proof.
  unfold matches, subtopic_query. simpl. rewrite andb_true_r.
  change (SubTopic_field s "name") with (Some (QStr (SubTopic.name s))).
  change (SubTopic_field s "subject") with (Some (QStr (SubTopic.subject s))).
  change (SubTopic_field s "v4_finalized")
    with (Some (QBool (SubTopic.v4_finalized s))).
  simpl. rewrite !andb_true_iff, !String.eqb_eq.
  by destruct (SubTopic.v4_finalized s).
Qed.

Lemma matches_units_query subtopic (u : MicroUnit.t) :
  matches MicroUnit_field (units_query subtopic) u = true
  <-> MicroUnit.subtopic u = SubTopic.id subtopic
      /\ MicroUnit.v6_finalized u = true.
Proof.
  unfold matches, units_query. simpl. rewrite andb_true_r.
  change (MicroUnit_field u "subtopic")
    with (Some (QId (MicroUnit.subtopic u))).
  change (MicroUnit_field u "v6_finalized")
    with (Some (QBool (MicroUnit.v6_finalized u))).
  simpl. rewrite andb_true_iff, ObjectId_eqb_eq.
  by destruct (MicroUnit.v6_finalized u).
Qed.

Lemma micro_units_by_subtopic_outcome st subject subtopic_name :
  outcome (micro_units_by_subtopic st subject subtopic_name) =
  match select SubTopic_field (subtopic_query subject subtopic_name)
          (db_subtopics st) with
  | [] => Raise DoesNotExist
  | [subtopic] =>
      Ok (micro_unit_json st (units_of st subtopic) <$> units_of st subtopic)
  | _ :: _ :: _ => Raise MultipleObjectsReturned
  end.
Proof.
  unfold micro_units_by_subtopic.
  rewrite outcome_bind, get_eq. cbn [outcome fst].
  fold (subtopic_query subject subtopic_name).
  destruct (select _ _ _) as [| subtopic [| s' rest]]; [done | | done].
  rewrite outcome_bind, objects_order_by_eq. cbn [outcome fst].
  fold (units_query subtopic). fold (units_of st subtopic).
  rewrite outcome_bind, noted_micro_units_outcome.
  reflexivity.
Qed.

Lemma micro_units_by_subtopic_trace st subject subtopic_name :
  trace (micro_units_by_subtopic st subject subtopic_name) =
  Find coll_subtopics (subtopic_query subject subtopic_name) None
  :: match select SubTopic_field (subtopic_query subject subtopic_name)
             (db_subtopics st) with
     | [subtopic] =>
         Find coll_micro_units (units_query subtopic) (Some "order")
         :: trace (noted_micro_units st (units_of st subtopic))
     | _ => []
     end.
Proof.
  unfold micro_units_by_subtopic.
  rewrite trace_bind, get_eq. cbn [outcome trace fst snd].
  fold (subtopic_query subject subtopic_name).
  destruct (select _ _ _) as [| subtopic [| s' rest]]; [done | | done].
  rewrite trace_bind, objects_order_by_eq. cbn [outcome trace fst snd].
  fold (units_query subtopic). fold (units_of st subtopic).
  rewrite trace_bind, noted_micro_units_outcome.
  cbn [trace snd mret M_ret]. by rewrite app_nil_r.
Qed.

(** ** Sorting *)

Section SortingFacts.
Context {D : Type} (key : D -> Z).

Lemma insert_by_Permutation (x : D) (l : list D) :
  insert_by key x l ≡ₚ x :: l.
Proof.
  induction l as [| y l IH]; simpl; [done |].
  destruct (key x <=? key y); [done |].
  rewrite IH. apply Permutation_swap.
Qed.

Lemma sort_by_Permutation (l : list D) : sort_by key l ≡ₚ l.
Proof.
  induction l as [| x l IH]; simpl; [done |].
  fold (sort_by key l). by rewrite insert_by_Permutation, IH.
Qed.

Lemma elem_of_sort_by (x : D) (l : list D) : x ∈ sort_by key l <-> x ∈ l.
Proof. by rewrite sort_by_Permutation. Qed.

Lemma insert_by_sorted (x : D) (l : list D) :
  StronglySorted (key_le key) l ->
  StronglySorted (key_le key) (insert_by key x l).
Proof.
  induction 1 as [| y l Hsorted IH Hall]; simpl.
  - repeat constructor.
  - destruct (key x <=? key y) eqn:Hle.
    + apply Z.leb_le in Hle. constructor; [by constructor |].
      constructor; [exact Hle |].
      eapply Forall_impl; [exact Hall |]. unfold key_le. intros z Hz. lia.
    + apply Z.leb_gt in Hle. constructor; [exact IH |].
      rewrite insert_by_Permutation. constructor; [| exact Hall].
      unfold key_le. lia.
Qed.

Lemma sort_by_sorted (l : list D) :
  StronglySorted (key_le key) (sort_by key l).
Proof.
  induction l as [| x l IH]; simpl; [constructor |].
  by apply insert_by_sorted.
Qed.

(** Stability: a list already in order is returned as it is, so units with
    equal keys keep their storage order. *)
Lemma insert_by_head (x : D) (l : list D) :
  Forall (key_le key x) l -> insert_by key x l = x :: l.
Proof.
  destruct 1 as [| y l Hxy _]; simpl; [done |].
  apply Z.leb_le in Hxy. by rewrite Hxy.
Qed.

Lemma sort_by_sorted_id (l : list D) :
  StronglySorted (key_le key) l -> sort_by key l = l.
Proof.
  induction 1 as [| x l _ IH Hall]; simpl; [done |].
  fold (sort_by key l). rewrite IH. by apply insert_by_head.
Qed.
End SortingFacts.

Lemma elem_of_units_of st subtopic (u : MicroUnit.t) :
  u ∈ units_of st subtopic
  <-> u ∈ db_micro_units st
      /\ MicroUnit.subtopic u = SubTopic.id subtopic
      /\ MicroUnit.v6_finalized u = true.
Proof.
  unfold units_of.
  by rewrite elem_of_sort_by, elem_of_select, matches_units_query.
Qed.

Lemma select_subject_filter st subject :
  subtopics_of st subject =
  List.filter (fun s => String.eqb (SubTopic.subject s) subject)
    (db_subtopics st).
Proof.
  unfold subtopics_of, select. apply filter_ext. intros s.
  unfold matches, subject_query. simpl. apply andb_true_r.
Qed.

(** C2. [/micro-units] raises the not-found exception when no subtopic
    with the given name and subject has its finalized flag set, and every
    row it returns is a stored micro-unit whose finalized flag is set;
    [/subtopics] returns every subtopic of the subject, whatever its stage
    flags. *)
Theorem micro_units_gated_subtopics_ungated
    (st : Store) (subject subtopic_name : string) :
  ((forall s, s ∈ db_subtopics st ->
              SubTopic.name s = subtopic_name ->
              SubTopic.subject s = subject ->
              SubTopic.v4_finalized s = false) ->
   outcome (micro_units_by_subtopic st subject subtopic_name)
   = Raise DoesNotExist)
  /\ (forall rows,
        outcome (micro_units_by_subtopic st subject subtopic_name) = Ok rows ->
        forall r, r ∈ rows ->
          exists u, u ∈ db_micro_units st
                    /\ MicroUnit.v6_finalized u = true
                    /\ MicroUnitJson.id r = ObjectId_str (MicroUnit.id u)
                    /\ MicroUnitJson.name r = MicroUnit.name u
                    /\ MicroUnitJson.order r = MicroUnit.order u)
  /\ exists rows,
       outcome (subtopics_by_subject st subject) = Ok rows
       /\ SubtopicJson.name <$> rows =
          SubTopic.name
          <$> List.filter (fun s => String.eqb (SubTopic.subject s) subject)
                (db_subtopics st).
Proof.
  split; [| split].
  - intros Hnone. rewrite micro_units_by_subtopic_outcome.
    destruct (select _ _ _) as [| s rest] eqn:Hsel; [done |].
    assert (s ∈ select SubTopic_field (subtopic_query subject subtopic_name)
                  (db_subtopics st)) as Hs by (rewrite Hsel; left).
    apply elem_of_select in Hs as [Hin Hm].
    apply matches_subtopic_query in Hm as (Hn & Hsub & Hfin).
    rewrite (Hnone s Hin Hn Hsub) in Hfin. discriminate.
  - intros rows. rewrite micro_units_by_subtopic_outcome.
    destruct (select _ _ _) as [| subtopic [| s' rest]]; [done | | done].
    intros [= <-] r Hr. apply list_elem_of_fmap in Hr as (u & -> & Hu).
    apply elem_of_units_of in Hu as (Hin & _ & Hfin).
    exists u. by repeat split.
  - eexists. split; [apply subtopics_by_subject_outcome |].
    rewrite <- list_fmap_compose, select_subject_filter. reflexivity.
Qed.

Lemma micro_units_gated_subtopics_ungated_witness :
  outcome (micro_units_by_subtopic Fixture.store "History" "Medieval India")
  = Raise DoesNotExist.
Proof.
  apply (proj1 (micro_units_gated_subtopics_ungated
                  Fixture.store "History" "Medieval India")).
  intros s Hs Hname. unfold Fixture.store in Hs. simpl in Hs.
  apply list_elem_of_singleton in Hs. subst s. discriminate Hname.
Defined.

Lemma ObjectId_str_inj (a b : ObjectId) :
  ObjectId_str a = ObjectId_str b -> a = b.
Proof. destruct a, b. simpl. congruence. Qed.

Lemma micro_unit_json_has_notes st units (u : MicroUnit.t) :
  u ∈ db_micro_units st -> u ∈ units ->
  MicroUnitJson.has_notes (micro_unit_json st units u) = true
  <-> exists n, n ∈ db_micro_unit_notes st
                /\ MicroUnitNote.micro_unit n = MicroUnit.id u.
Proof.
  intros Hstored Hu. unfold micro_unit_json. simpl.
  rewrite py_in_py_set, (py_in_MicroUnit_dereferenced st u _ Hstored).
  rewrite elem_of_noted_ids. split; [by intros [Hn _] |].
  intros Hn. split; [done |]. apply list_elem_of_fmap. by exists u.
Qed.

(** C3. Whenever [/micro-units] answers, its rows are in ascending order of
    the stored [order] value and a row has has_notes set exactly when some
    note references the unit of that row; on the fixture the rows are
    Guptas (order 1, has_notes) then Mauryas (order 2, no notes). *)
Theorem micro_units_sorted_and_flagged :
  (forall (st : Store) (subject subtopic_name : string) rows,
     outcome (micro_units_by_subtopic st subject subtopic_name) = Ok rows ->
     StronglySorted order_le rows
     /\ forall r, r ∈ rows ->
          (MicroUnitJson.has_notes r = true
           <-> exists n, n ∈ db_micro_unit_notes st
                         /\ ObjectId_str (MicroUnitNote.micro_unit n)
                            = MicroUnitJson.id r))
  /\ outcome (micro_units_by_subtopic Fixture.store "History" "Ancient India")
     = Ok [MicroUnitJson.mk "64a000000000000000000022" "Guptas" 1 true;
           MicroUnitJson.mk "64a000000000000000000021" "Mauryas" 2 false].
Proof.
  split; [| vm_compute; reflexivity].
  intros st subject subtopic_name rows.
  rewrite micro_units_by_subtopic_outcome.
  destruct (select _ _ _) as [| subtopic [| s' rest]]; [done | | done].
  intros [= <-]. split.
  - apply (StronglySorted_fmap _ (key_le (int_key MicroUnit_field "order"))).
    + intros x y Hxy. exact Hxy.
    + apply sort_by_sorted.
  - intros r Hr. apply list_elem_of_fmap in Hr as (u & -> & Hu).
    pose proof Hu as Hu'. apply elem_of_units_of in Hu' as (Hstored & _ & _).
    rewrite (micro_unit_json_has_notes st _ u Hstored Hu). simpl.
    split; intros (n & Hn & Href); exists n; split; try done.
    + by rewrite Href.
    + by apply ObjectId_str_inj.
Qed.

Lemma micro_units_sorted_and_flagged_witness :
  StronglySorted order_le
    [MicroUnitJson.mk "64a000000000000000000022" "Guptas" 1 true;
     MicroUnitJson.mk "64a000000000000000000021" "Mauryas" 2 false].
Proof.
  apply (proj1 micro_units_sorted_and_flagged
           Fixture.store "History" "Ancient India").
  vm_compute. reflexivity.
Defined.

(** ** Unique keys *)

Section UniqueKey.
Context {D K : Type} (f : D -> K) (p : D -> bool) (k : K).
Hypothesis p_key : forall x, p x = true -> f x = k.

Lemma filter_unique_key (l : list D) :
  NoDup (f <$> l) ->
  List.filter p l = [] \/ exists d, List.filter p l = [d].
Proof.
  induction l as [| x l IH]; cbn [List.filter]; [by left |].
  rewrite fmap_cons, NoDup_cons. intros [Hx Hnd].
  destruct (p x) eqn:Hpx; [| by apply IH]. right. exists x. f_equal.
  destruct (List.filter p l) as [| y rest] eqn:Hf; [done |]. exfalso.
  assert (In y (List.filter p l)) as Hy by (rewrite Hf; by left).
  apply filter_In in Hy as [Hy Hpy]. apply Hx.
  rewrite (p_key x Hpx), <- (p_key y Hpy).
  apply list_elem_of_fmap. exists y. split; [done | by apply list_elem_of_In].
Qed.

Lemma filter_unique_member (l : list D) (d : D) :
  NoDup (f <$> l) -> d ∈ l -> p d = true -> List.filter p l = [d].
Proof.
  intros Hnd Hd Hpd.
  assert (In d (List.filter p l)) as Hin.
  { apply filter_In. split; [by apply list_elem_of_In | done]. }
  destruct (filter_unique_key l Hnd) as [Hnil | [d' Hone]].
  - rewrite Hnil in Hin. destruct Hin.
  - rewrite Hone in Hin |- *. destruct Hin as [-> | []]. reflexivity.
Qed.
End UniqueKey.

(** ** Fetching a note and an MCQ set *)

Lemma matches_id_query o (u : MicroUnit.t) :
  matches MicroUnit_field (id_query o) u = true <-> MicroUnit.id u = o.
Proof.
  unfold matches, id_query. simpl. rewrite andb_true_r.
  change (MicroUnit_field u "id") with (Some (QId (MicroUnit.id u))).
  simpl. apply ObjectId_eqb_eq.
Qed.

Lemma matches_note_ref o (n : MicroUnitNote.t) :
  matches MicroUnitNote_field (ref_query o) n = true
  <-> MicroUnitNote.micro_unit n = o.
Proof.
  unfold matches, ref_query. simpl. rewrite andb_true_r.
  change (MicroUnitNote_field n "micro_unit")
    with (Some (QId (MicroUnitNote.micro_unit n))).
  simpl. apply ObjectId_eqb_eq.
Qed.

Lemma matches_mcq_ref o (m : MicroUnitMCQ.t) :
  matches MicroUnitMCQ_field (ref_query o) m = true
  <-> MicroUnitMCQ.micro_unit m = o.
Proof.
  unfold matches, ref_query. simpl. rewrite andb_true_r.
  change (MicroUnitMCQ_field m "micro_unit")
    with (Some (QId (MicroUnitMCQ.micro_unit m))).
  simpl. apply ObjectId_eqb_eq.
Qed.

Lemma notes_by_micro_unit_eq st micro_unit_id :
  notes_by_micro_unit st micro_unit_id =
  match ObjectId_parse micro_unit_id with
  | None => (Raise InvalidId, [])
  | Some oid =>
      match select MicroUnit_field (id_query oid) (db_micro_units st) with
      | [] => (Raise DoesNotExist, [Find coll_micro_units (id_query oid) None])
      | [micro_unit] =>
          (match select MicroUnitNote_field
                   (ref_query (MicroUnit.id micro_unit))
                   (db_micro_unit_notes st) with
           | [] => Raise DoesNotExist
           | [note] =>
               Ok (NoteJson.mk micro_unit_id (MicroUnitNote.content note))
           | _ :: _ :: _ => Raise MultipleObjectsReturned
           end,
           [Find coll_micro_units (id_query oid) None;
            Find coll_micro_unit_notes
              (ref_query (MicroUnit.id micro_unit)) None])
      | _ :: _ :: _ =>
          (Raise MultipleObjectsReturned,
           [Find coll_micro_units (id_query oid) None])
      end
  end.
Proof.
  unfold notes_by_micro_unit, ObjectId_new.
  destruct (ObjectId_parse micro_unit_id) as [oid |]; [| done].
  rewrite M_ret_bind, get_eq. fold (id_query oid).
  destruct (select MicroUnit_field _ _) as [| mu [| mu' rest]];
    [done | | done].
  unfold mbind at 1, M_bind at 1. rewrite get_eq.
  fold (ref_query (MicroUnit.id mu)).
  by destruct (select MicroUnitNote_field _ _) as [| n [| n' rest]].
Qed.

Lemma mcqs_by_micro_unit_eq st micro_unit_id :
  mcqs_by_micro_unit st micro_unit_id =
  match ObjectId_parse micro_unit_id with
  | None => (Raise ValidationError, [])
  | Some ref =>
      (match select MicroUnitMCQ_field (ref_query ref)
               (db_micro_unit_mcqs st) with
       | [] => Raise DoesNotExist
       | [mcq] => Ok (mcqs_json mcq)
       | _ :: _ :: _ => Raise MultipleObjectsReturned
       end,
       [Find coll_micro_unit_mcqs (ref_query ref) None])
  end.
Proof.
  unfold mcqs_by_micro_unit, ReferenceField_to_mongo.
  destruct (ObjectId_parse micro_unit_id) as [ref |]; [| done].
  rewrite M_ret_bind, get_eq. fold (ref_query ref).
  by destruct (select MicroUnitMCQ_field _ _) as [| m [| m' rest]].
Qed.

Lemma http_status_Raise {A} (m : M A) (e : exn) :
  outcome m = Raise e -> http_status m = 500.
Proof. unfold http_status. by intros ->. Qed.

Lemma select_nil {D} (getf : D -> string -> option qvalue) q (docs : list D) :
  (forall d, d ∈ docs -> matches getf q d = false) -> select getf q docs = [].
Proof.
  intros Hno. unfold select.
  destruct (List.filter (matches getf q) docs) as [| d rest] eqn:Hf; [done |].
  assert (In d (List.filter (matches getf q) docs)) as Hd
    by (rewrite Hf; by left).
  apply filter_In in Hd as [Hd Hm]. apply list_elem_of_In in Hd.
  rewrite (Hno d Hd) in Hm. discriminate.
Qed.

Lemma notes_by_micro_unit_no_note st micro_unit_id oid :
  indexes_hold st ->
  ObjectId_parse micro_unit_id = Some oid ->
  (forall n, n ∈ db_micro_unit_notes st -> MicroUnitNote.micro_unit n <> oid) ->
  outcome (notes_by_micro_unit st micro_unit_id) = Raise DoesNotExist.
Proof.
  intros Hidx Hparse Hnone. rewrite notes_by_micro_unit_eq, Hparse.
  destruct (filter_unique_key MicroUnit.id
              (matches MicroUnit_field (id_query oid)) oid
              (fun u => proj1 (matches_id_query oid u))
              (db_micro_units st) (unique_micro_unit_ids st Hidx))
    as [Hnil | [mu Hone]]; unfold select.
  - by rewrite Hnil.
  - rewrite Hone. simpl.
    assert (MicroUnit.id mu = oid) as Hid.
    { apply matches_id_query.
      assert (In mu (List.filter (matches MicroUnit_field (id_query oid))
                       (db_micro_units st))) as Hin by (rewrite Hone; by left).
      by apply filter_In in Hin as [_ Hm]. }
    fold (select MicroUnitNote_field (ref_query (MicroUnit.id mu))
            (db_micro_unit_notes st)).
    rewrite select_nil; [done |].
    intros n Hn. apply not_true_is_false. rewrite matches_note_ref, Hid.
    by apply Hnone.
Qed.

Lemma mcqs_by_micro_unit_no_mcq st micro_unit_id oid :
  ObjectId_parse micro_unit_id = Some oid ->
  (forall m, m ∈ db_micro_unit_mcqs st -> MicroUnitMCQ.micro_unit m <> oid) ->
  outcome (mcqs_by_micro_unit st micro_unit_id) = Raise DoesNotExist.
Proof.
  intros Hparse Hnone. rewrite mcqs_by_micro_unit_eq, Hparse. simpl.
  rewrite select_nil; [done |].
  intros m Hm. apply not_true_is_false. rewrite matches_mcq_ref.
  by apply Hnone.
Qed.

(** C4 (as the code has it).  For a well-formed identifier, [/notes] raises
    the not-found exception when no note references the unit and [/mcqs]
    raises it when no MCQ set references the identifier; neither returns a
    body.  Nothing turns the exception into a not-found response: the
    client receives status 500. *)
Theorem missing_note_or_mcqs_raises (st : Store) (micro_unit_id : string)
    (oid : ObjectId) :
  indexes_hold st ->
  ObjectId_parse micro_unit_id = Some oid ->
  ((forall n, n ∈ db_micro_unit_notes st -> MicroUnitNote.micro_unit n <> oid) ->
   outcome (notes_by_micro_unit st micro_unit_id) = Raise DoesNotExist
   /\ http_status (notes_by_micro_unit st micro_unit_id) = 500)
  /\ ((forall m, m ∈ db_micro_unit_mcqs st -> MicroUnitMCQ.micro_unit m <> oid) ->
      outcome (mcqs_by_micro_unit st micro_unit_id) = Raise DoesNotExist
      /\ http_status (mcqs_by_micro_unit st micro_unit_id) = 500).
Proof.
  intros Hidx Hparse. split; intros Hnone.
  - pose proof (notes_by_micro_unit_no_note st _ oid Hidx Hparse Hnone) as H.
    split; [done | by apply (http_status_Raise _ DoesNotExist)].
  - pose proof (mcqs_by_micro_unit_no_mcq st _ oid Hparse Hnone) as H.
    split; [done | by apply (http_status_Raise _ DoesNotExist)].
Qed.

Lemma fixture_indexes_hold : indexes_hold Fixture.store.
Proof.
  split; apply (bool_decide_unpack _); vm_compute; exact I.
Qed.

Lemma missing_note_or_mcqs_raises_witness :
  outcome (notes_by_micro_unit Fixture.store "64a000000000000000000021")
  = Raise DoesNotExist
  /\ http_status (notes_by_micro_unit Fixture.store "64a000000000000000000021")
     = 500.
Proof.
  apply (proj1 (missing_note_or_mcqs_raises Fixture.store
                  "64a000000000000000000021" Fixture.oid_mauryas
                  fixture_indexes_hold eq_refl)).
  intros n Hn. unfold Fixture.store in Hn. simpl in Hn.
  apply list_elem_of_singleton in Hn. subst n. discriminate.
Defined.

(** C4 as stated fails: "Mauryas" has no note, and the client of
    [/notes/<id of Mauryas>] does not see a not-found response. *)
Lemma missing_note_is_not_a_404 :
  (forall n, n ∈ db_micro_unit_notes Fixture.store ->
             MicroUnitNote.micro_unit n <> Fixture.oid_mauryas)
  /\ ObjectId_parse "64a000000000000000000021" = Some Fixture.oid_mauryas
  /\ http_status (notes_by_micro_unit Fixture.store "64a000000000000000000021")
     = 500
  /\ ~ client_sees_not_found
         (notes_by_micro_unit Fixture.store "64a000000000000000000021").
Proof.
  split; [| split; [| split]].
  - intros n Hn. unfold Fixture.store in Hn. simpl in Hn.
    apply list_elem_of_singleton in Hn. subst n. discriminate.
  - reflexivity.
  - reflexivity.
  - unfold client_sees_not_found. vm_compute. discriminate.
Qed.

(** C5 (as the code has it).  For every text that is not a well-formed
    identifier, [/notes] raises bson's InvalidId before anything is sent to
    the store; no handler catches it, so the client receives status 500
    (Internal Server Error), not a bad-request response. *)
Theorem malformed_id_raises_InvalidId (st : Store) (micro_unit_id : string) :
  ObjectId_parse micro_unit_id = None ->
  notes_by_micro_unit st micro_unit_id = (Raise InvalidId, [])
  /\ http_status (notes_by_micro_unit st micro_unit_id) = 500.
Proof.
  intros Hparse. rewrite notes_by_micro_unit_eq, Hparse. by split.
Qed.

Lemma malformed_id_raises_InvalidId_witness :
  notes_by_micro_unit Fixture.store "not-an-id" = (Raise InvalidId, [])
  /\ http_status (notes_by_micro_unit Fixture.store "not-an-id") = 500.
Proof.
  apply (malformed_id_raises_InvalidId Fixture.store "not-an-id"). reflexivity.
Defined.

(** C5 as stated fails: "not-an-id" cannot be parsed, and the client of
    [/notes/not-an-id] gets the internal-error status, not a bad-request
    one. *)
Lemma malformed_id_is_an_internal_error :
  ObjectId_parse "not-an-id" = None
  /\ http_status (notes_by_micro_unit Fixture.store "not-an-id") = 500
  /\ ~ client_sees_bad_request (notes_by_micro_unit Fixture.store "not-an-id").
Proof.
  split; [reflexivity |]. split; [reflexivity |].
  unfold client_sees_bad_request. vm_compute. discriminate.
Qed.

(** C7 (as the code has it).  The body of [/mcqs] repeats the stored
    [mcq_count] and lists one entry per stored question; the route compares
    neither with the other, so the two agree in the body exactly when they
    agree in the stored document. *)
Theorem mcq_count_is_the_stored_count (st : Store) (micro_unit_id : string)
    (body : McqsJson.t) :
  outcome (mcqs_by_micro_unit st micro_unit_id) = Ok body ->
  exists mcq,
    mcq ∈ db_micro_unit_mcqs st
    /\ McqsJson.mcq_count body = MicroUnitMCQ.mcq_count mcq
    /\ List.length (McqsJson.mcqs body) = List.length (MicroUnitMCQ.mcqs mcq)
    /\ (McqsJson.mcq_count body = Z.of_nat (List.length (McqsJson.mcqs body))
        <-> MicroUnitMCQ.mcq_count mcq
            = Z.of_nat (List.length (MicroUnitMCQ.mcqs mcq))).
Proof.
  rewrite mcqs_by_micro_unit_eq.
  destruct (ObjectId_parse micro_unit_id) as [ref |]; [| done]. simpl.
  destruct (select _ _ _) as [| mcq [| m' rest]] eqn:Hsel; [done | | done].
  intros [= <-]. exists mcq.
  assert (mcq ∈ select MicroUnitMCQ_field (ref_query ref)
                  (db_micro_unit_mcqs st)) as Hin by (rewrite Hsel; left).
  apply elem_of_select in Hin as [Hin _].
  unfold mcqs_json. simpl. rewrite length_fmap. by repeat split.
Qed.

Lemma mcq_count_is_the_stored_count_witness :
  exists mcq,
    mcq ∈ db_micro_unit_mcqs Fixture.store_mcq
    /\ 5 = MicroUnitMCQ.mcq_count mcq
    /\ 1%nat = List.length (MicroUnitMCQ.mcqs mcq)
    /\ (5 = 1 <-> MicroUnitMCQ.mcq_count mcq
                  = Z.of_nat (List.length (MicroUnitMCQ.mcqs mcq))).
Proof.
  apply (mcq_count_is_the_stored_count Fixture.store_mcq
           "64a0000000000000000000ff"
           (mcqs_json Fixture.orphan_mcq)).
  reflexivity.
Defined.

(** C7 as stated fails: a stored MCQ set with mcq_count = 5 and one
    question is served with mcq_count = 5 and one question. *)
Lemma mcq_count_differs_from_length :
  exists body,
    outcome (mcqs_by_micro_unit Fixture.store_mcq "64a0000000000000000000ff")
    = Ok body
    /\ McqsJson.mcq_count body = 5
    /\ List.length (McqsJson.mcqs body) = 1%nat
    /\ McqsJson.mcq_count body <> Z.of_nat (List.length (McqsJson.mcqs body)).
Proof.
  eexists. split; [vm_compute; reflexivity |]. simpl.
  split; [reflexivity |]. split; [reflexivity |]. discriminate.
Qed.

(** C10. [/mcqs] looks at the MCQ collection only: for a well-formed
    identifier that a stored MCQ set references, it returns that set with
    a single find on the MCQ collection, whatever the micro-unit collection
    holds. *)
Theorem mcqs_served_without_micro_unit (st : Store) (micro_unit_id : string)
    (oid : ObjectId) (mcq : MicroUnitMCQ.t) :
  NoDup (MicroUnitMCQ.micro_unit <$> db_micro_unit_mcqs st) ->
  ObjectId_parse micro_unit_id = Some oid ->
  mcq ∈ db_micro_unit_mcqs st ->
  MicroUnitMCQ.micro_unit mcq = oid ->
  mcqs_by_micro_unit st micro_unit_id
  = (Ok (McqsJson.mk (MicroUnitMCQ.mcq_count mcq)
           (question_json <$> MicroUnitMCQ.mcqs mcq)),
     [Find coll_micro_unit_mcqs [FEq "micro_unit" (QId oid)] None]).
Proof.
  intros Hnd Hparse Hin Href. rewrite mcqs_by_micro_unit_eq, Hparse.
  unfold select.
  rewrite (filter_unique_member MicroUnitMCQ.micro_unit
             (matches MicroUnitMCQ_field (ref_query oid)) oid
             (fun m => proj1 (matches_mcq_ref oid m))
             (db_micro_unit_mcqs st) mcq Hnd Hin).
  - reflexivity.
  - by apply matches_mcq_ref.
Qed.

Lemma mcqs_served_without_micro_unit_witness :
  (forall u, u ∈ db_micro_units Fixture.store_mcq ->
             MicroUnit.id u <> Fixture.oid_missing)
  /\ outcome (mcqs_by_micro_unit Fixture.store_mcq "64a0000000000000000000ff")
     = Ok (mcqs_json Fixture.orphan_mcq).
Proof.
  split.
  - intros u Hu. unfold Fixture.store_mcq in Hu. simpl in Hu.
    apply elem_of_cons in Hu as [-> | Hu]; [discriminate |].
    apply list_elem_of_singleton in Hu. subst u. discriminate.
  - rewrite (mcqs_served_without_micro_unit Fixture.store_mcq
               "64a0000000000000000000ff" Fixture.oid_missing
               Fixture.orphan_mcq).
    + reflexivity.
    + apply NoDup_singleton.
    + reflexivity.
    + left.
    + reflexivity.
Defined.

(** ** Dangling references *)

Lemma get_completes_or_not_found {D K} (getf : D -> string -> option qvalue)
    (f : D -> K) (k : K) (q : query) (docs : list D) :
  (forall d, matches getf q d = true -> f d = k) ->
  NoDup (f <$> docs) ->
  select getf q docs = [] \/ exists d, select getf q docs = [d].
Proof. intros Hkey Hnd. by apply (filter_unique_key f _ k). Qed.

Ltac returned := left; split; [by eexists | done].
Ltac raised_not_found := right; by split.

(** C8 (as the code has it).  In every store that obeys the declared
    indexes, whether or not its references resolve, the three routes that
    take at most a subject always return: [/subtopics] only visits
    micro-units selected through stored subtopics, so the one place that
    follows a stored reference ([mu.subtopic]) never meets a dangling one.
    The other three routes, given well-formed identifiers, either return or
    raise the not-found exception and no other; that exception is caught
    nowhere, so the client then receives status 500. *)
Theorem dangling_references_raise_only_not_found (st : Store) :
  indexes_hold st ->
  completes (list_subjects st)
  /\ (forall subject, completes (syllabus_by_subject st subject))
  /\ (forall subject, completes (subtopics_by_subject st subject))
  /\ (forall subject subtopic_name,
        completes_or_unhandled_not_found
          (micro_units_by_subtopic st subject subtopic_name))
  /\ (forall micro_unit_id oid,
        ObjectId_parse micro_unit_id = Some oid ->
        completes_or_unhandled_not_found
          (notes_by_micro_unit st micro_unit_id))
  /\ (forall micro_unit_id oid,
        ObjectId_parse micro_unit_id = Some oid ->
        completes_or_unhandled_not_found
          (mcqs_by_micro_unit st micro_unit_id)).
Proof.
  intros Hidx.
  unfold completes_or_unhandled_not_found, completes, http_status.
  split; [| split; [| split; [| split; [| split]]]].
  - eexists. reflexivity.
  - intros subject. eexists. reflexivity.
  - intros subject. eexists. apply subtopics_by_subject_outcome.
  - intros subject subtopic_name. rewrite micro_units_by_subtopic_outcome.
    destruct (get_completes_or_not_found SubTopic_field
                (fun s => (SubTopic.name s, SubTopic.subject s))
                (subtopic_name, subject)
                (subtopic_query subject subtopic_name) (db_subtopics st))
      as [-> | [s ->]].
    + intros s Hm. apply matches_subtopic_query in Hm as (-> & -> & _).
      reflexivity.
    + apply (unique_subtopic_names st Hidx).
    + raised_not_found.
    + returned.
  - intros micro_unit_id oid Hparse.
    rewrite notes_by_micro_unit_eq, Hparse.
    destruct (get_completes_or_not_found MicroUnit_field MicroUnit.id oid
                (id_query oid) (db_micro_units st))
      as [-> | [mu ->]].
    + intros u. apply matches_id_query.
    + apply (unique_micro_unit_ids st Hidx).
    + raised_not_found.
    + cbn [outcome fst].
      destruct (get_completes_or_not_found MicroUnitNote_field
                  MicroUnitNote.micro_unit (MicroUnit.id mu)
                  (ref_query (MicroUnit.id mu)) (db_micro_unit_notes st))
        as [-> | [n ->]].
      * intros n. apply matches_note_ref.
      * apply (unique_note_refs st Hidx).
      * raised_not_found.
      * returned.
  - intros micro_unit_id oid Hparse.
    rewrite mcqs_by_micro_unit_eq, Hparse. cbn [outcome fst].
    destruct (get_completes_or_not_found MicroUnitMCQ_field
                MicroUnitMCQ.micro_unit oid
                (ref_query oid) (db_micro_unit_mcqs st))
      as [-> | [m ->]].
    + intros m. apply matches_mcq_ref.
    + apply (unique_mcq_refs st Hidx).
    + raised_not_found.
    + returned.
Qed.

Lemma store_dangling_indexes_hold : indexes_hold Fixture.store_dangling.
Proof.
  split; apply (bool_decide_unpack _); vm_compute; exact I.
Qed.

Lemma dangling_references_raise_only_not_found_witness :
  dangling_subtopic Fixture.store_dangling Fixture.stray
  /\ completes (subtopics_by_subject Fixture.store_dangling "History")
  /\ completes_or_unhandled_not_found
       (notes_by_micro_unit Fixture.store_dangling "64a0000000000000000000ff").
Proof.
  pose proof (dangling_references_raise_only_not_found Fixture.store_dangling
                store_dangling_indexes_hold)
    as (_ & _ & Hsub & _ & Hnotes & _).
  split; [| split].
  - split.
    + unfold Fixture.store_dangling. simpl. right. right. left.
    + apply (bool_decide_unpack _). vm_compute. exact I.
  - apply Hsub.
  - apply (Hnotes _ Fixture.oid_missing). reflexivity.
Defined.

(** C8 as stated fails: in a store where a note references a micro-unit
    that does not exist (and a micro-unit references a subtopic that does
    not exist), [/notes] on the unresolved identifier raises an exception
    that nothing handles, and the client receives the internal-error
    status. *)
Lemma dangling_note_reference_is_unhandled :
  dangling_subtopic Fixture.store_dangling Fixture.stray
  /\ (Fixture.stray_note ∈ db_micro_unit_notes Fixture.store_dangling
      /\ MicroUnitNote.micro_unit Fixture.stray_note = Fixture.oid_missing
      /\ Fixture.oid_missing
         ∉ MicroUnit.id <$> db_micro_units Fixture.store_dangling)
  /\ ObjectId_parse "64a0000000000000000000ff" = Some Fixture.oid_missing
  /\ outcome (notes_by_micro_unit Fixture.store_dangling
                "64a0000000000000000000ff") = Raise DoesNotExist
  /\ http_status (notes_by_micro_unit Fixture.store_dangling
                    "64a0000000000000000000ff") = 500
  /\ unhandled_internal_error
       (notes_by_micro_unit Fixture.store_dangling "64a0000000000000000000ff").
Proof.
  split; [| split; [| split; [| split; [| split]]]].
  - split.
    + unfold Fixture.store_dangling. simpl. right. right. left.
    + apply (bool_decide_unpack _). vm_compute. exact I.
  - split; [right; left |]. split; [reflexivity |].
    apply (bool_decide_unpack _). vm_compute. exact I.
  - reflexivity.
  - reflexivity.
  - reflexivity.
  - exists DoesNotExist. by split.
Qed.

(** ** Commands sent for the notes-existence flags *)

Lemma commands_on_notes_noted st units :
  commands_on coll_micro_unit_notes (trace (noted_micro_units st units))
  = [Distinct coll_micro_unit_notes (note_query units) "micro_unit"].
Proof.
  rewrite noted_micro_units_trace. unfold commands_on. simpl.
  by destruct (noted_ids st units).
Qed.

Lemma length_noted_trace st units :
  (List.length (trace (noted_micro_units st units)) <= 2)%nat.
Proof.
  rewrite noted_micro_units_trace. destruct (noted_ids st units); simpl; lia.
Qed.

(** C9. Each of the two listing routes sends exactly one command to the
    notes collection, a [distinct] whose filter is one membership test over
    all candidate micro-units; the whole route sends at most four commands,
    however many micro-units there are.  ([/micro-units] sends none to the
    notes collection when it raises before fetching the units.) *)
Theorem notes_existence_is_one_batched_query (st : Store) :
  (forall subject,
     commands_on coll_micro_unit_notes (trace (subtopics_by_subject st subject))
     = [Distinct coll_micro_unit_notes
          [FIn "micro_unit"
             ((fun u => QId (MicroUnit.id u)) <$> micro_units_of st subject)]
          "micro_unit"]
     /\ (List.length (trace (subtopics_by_subject st subject)) <= 4)%nat)
  /\ (forall subject subtopic_name,
        match outcome (micro_units_by_subtopic st subject subtopic_name) with
        | Ok rows =>
            exists units,
              MicroUnitJson.id <$> rows
              = (fun u => ObjectId_str (MicroUnit.id u)) <$> units
              /\ commands_on coll_micro_unit_notes
                   (trace (micro_units_by_subtopic st subject subtopic_name))
                 = [Distinct coll_micro_unit_notes
                      [FIn "micro_unit"
                         ((fun u => QId (MicroUnit.id u)) <$> units)]
                      "micro_unit"]
        | Raise _ =>
            commands_on coll_micro_unit_notes
              (trace (micro_units_by_subtopic st subject subtopic_name)) = []
        end
        /\ (List.length
              (trace (micro_units_by_subtopic st subject subtopic_name))
            <= 4)%nat).
Proof.
  split.
  - intros subject. rewrite subtopics_by_subject_trace. split.
    + unfold commands_on. cbn [List.filter command_collection].
      rewrite !bool_decide_eq_false_2 by discriminate.
      apply commands_on_notes_noted.
    + pose proof (length_noted_trace st (micro_units_of st subject)).
      simpl. lia.
  - intros subject subtopic_name.
    rewrite micro_units_by_subtopic_outcome, micro_units_by_subtopic_trace.
    destruct (select _ _ _) as [| subtopic [| s' rest]].
    + split; [reflexivity | simpl; lia].
    + split.
      * exists (units_of st subtopic). split.
        -- rewrite <- list_fmap_compose. reflexivity.
        -- unfold commands_on. cbn [List.filter command_collection].
           rewrite !bool_decide_eq_false_2 by discriminate.
           apply commands_on_notes_noted.
      * pose proof (length_noted_trace st (units_of st subtopic)).
        simpl. lia.
    + split; [reflexivity | simpl; lia].
Qed.

(** * Further properties of the routes *)

(** ** Syllabus rows *)

Lemma matches_syllabus_query subject (d : UPSCSyllabus.t) :
  matches UPSCSyllabus_field
    [FEq "subject" (QStr subject); FEq "v4" (QBool true)] d = true
  <-> UPSCSyllabus.subject d = subject /\ UPSCSyllabus.v4 d = true.
Proof.
  unfold matches. simpl. rewrite andb_true_r.
  change (UPSCSyllabus_field d "subject")
    with (Some (QStr (UPSCSyllabus.subject d))).
  change (UPSCSyllabus_field d "v4") with (Some (QBool (UPSCSyllabus.v4 d))).
  simpl. rewrite andb_true_iff, String.eqb_eq.
  by destruct (UPSCSyllabus.v4 d).
Qed.

Lemma select_syllabus_filter st subject :
  select UPSCSyllabus_field
    [FEq "subject" (QStr subject); FEq "v4" (QBool true)] (db_upsc_syllabus st)
  = List.filter
      (fun d => String.eqb (UPSCSyllabus.subject d) subject && UPSCSyllabus.v4 d)
      (db_upsc_syllabus st).
Proof.
  unfold select. apply filter_ext. intros d. unfold matches. simpl.
  change (UPSCSyllabus_field d "subject")
    with (Some (QStr (UPSCSyllabus.subject d))).
  change (UPSCSyllabus_field d "v4") with (Some (QBool (UPSCSyllabus.v4 d))).
  simpl. by destruct (UPSCSyllabus.v4 d), (String.eqb _ _).
Qed.

(** X1. [/syllabus/<subject>] always returns; its body has one row
    {stage, paper, exam} per syllabus document of that subject with v4 set,
    in storage order and without merging equal rows; the flags v1..v3 play
    no part, and one find is sent. *)
Theorem syllabus_by_subject_rows (st : Store) (subject : string) :
  syllabus_by_subject st subject
  = (Ok ((fun d => SyllabusJson.mk (UPSCSyllabus.stage d)
                     (UPSCSyllabus.paper d) (UPSCSyllabus.exam d))
         <$> List.filter
               (fun d => String.eqb (UPSCSyllabus.subject d) subject
                         && UPSCSyllabus.v4 d)
               (db_upsc_syllabus st)),
     [Find coll_upsc_syllabus
        [FEq "subject" (QStr subject); FEq "v4" (QBool true)] None]).
Proof.
  unfold syllabus_by_subject. rewrite objects_eq, select_syllabus_filter.
  reflexivity.
Qed.

(** X2. A subject is in the body of [/subjects] exactly when
    [/syllabus/<subject>] returns at least one row. *)
Theorem subject_listed_iff_syllabus_nonempty (st : Store) (S : string) :
  (exists subjects,
     outcome (list_subjects st) = Ok subjects /\ QStr S ∈ subjects)
  <-> (exists rows r,
         outcome (syllabus_by_subject st S) = Ok rows /\ r ∈ rows).
Proof.
  split.
  - intros (subjects & Hout & Hin). injection Hout as <-.
    apply elem_of_remove_dups, list_elem_of_omap in Hin as (d & Hd & Hf).
    apply elem_of_select in Hd as [Hd Hv]. apply matches_v4 in Hv.
    change (UPSCSyllabus_field d "subject")
      with (Some (QStr (UPSCSyllabus.subject d))) in Hf.
    assert (UPSCSyllabus.subject d = S) as HS by congruence.
    eexists. eexists. split; [reflexivity |].
    apply list_elem_of_fmap. exists d. split; [reflexivity |].
    apply elem_of_select. split; [done |]. by apply matches_syllabus_query.
  - intros (rows & r & Hout & Hin). injection Hout as <-.
    apply list_elem_of_fmap in Hin as (d & _ & Hd).
    apply elem_of_select in Hd as [Hd Hm].
    apply matches_syllabus_query in Hm as [HS Hv].
    eexists. split; [reflexivity |].
    apply elem_of_remove_dups, list_elem_of_omap. exists d. split.
    + apply elem_of_select. split; [done | by apply matches_v4].
    + by rewrite <- HS.
Qed.

(** ** The rows of a micro-unit listing *)

Lemma select_subtopic_unique st subject subtopic_name (s : SubTopic.t) :
  indexes_hold st ->
  s ∈ db_subtopics st ->
  SubTopic.name s = subtopic_name ->
  SubTopic.subject s = subject ->
  SubTopic.v4_finalized s = true ->
  select SubTopic_field (subtopic_query subject subtopic_name) (db_subtopics st)
  = [s].
Proof.
  intros Hidx Hin Hname Hsubject Hfin. unfold select.
  apply (filter_unique_member
           (fun s => (SubTopic.name s, SubTopic.subject s)) _
           (subtopic_name, subject)).
  - intros d Hm. apply matches_subtopic_query in Hm as (-> & -> & _).
    reflexivity.
  - apply (unique_subtopic_names st Hidx).
  - exact Hin.
  - by apply matches_subtopic_query.
Qed.

Lemma select_units_filter st (s : SubTopic.t) :
  select MicroUnit_field (units_query s) (db_micro_units st)
  = List.filter
      (fun u => ObjectId_eqb (MicroUnit.subtopic u) (SubTopic.id s)
                && MicroUnit.v6_finalized u)
      (db_micro_units st).
Proof.
  unfold select. apply filter_ext. intros u. unfold matches, units_query.
  simpl.
  change (MicroUnit_field u "subtopic")
    with (Some (QId (MicroUnit.subtopic u))).
  change (MicroUnit_field u "v6_finalized")
    with (Some (QBool (MicroUnit.v6_finalized u))).
  simpl. by destruct (MicroUnit.v6_finalized u), (ObjectId_eqb _ _).
Qed.

(** X3. When a finalized subtopic with the given name and subject is
    stored, [/micro-units] returns, and its rows are, up to order, one row
    per stored micro-unit that references this subtopic and has its
    finalized flag set: none is left out or repeated, whatever the unit's own
    [subject] field or other stage flags. *)
Theorem micro_units_lists_every_finalized_unit
    (st : Store) (subject subtopic_name : string) (s : SubTopic.t) :
  indexes_hold st ->
  s ∈ db_subtopics st ->
  SubTopic.name s = subtopic_name ->
  SubTopic.subject s = subject ->
  SubTopic.v4_finalized s = true ->
  exists rows,
    outcome (micro_units_by_subtopic st subject subtopic_name) = Ok rows
    /\ (fun r => (MicroUnitJson.id r, MicroUnitJson.name r,
                  MicroUnitJson.order r)) <$> rows
       ≡ₚ (fun u => (ObjectId_str (MicroUnit.id u), MicroUnit.name u,
                     MicroUnit.order u))
          <$> List.filter
                (fun u => ObjectId_eqb (MicroUnit.subtopic u) (SubTopic.id s)
                          && MicroUnit.v6_finalized u)
                (db_micro_units st).
Proof.
  intros Hidx Hin Hname Hsubject Hfin.
  rewrite micro_units_by_subtopic_outcome.
  rewrite (select_subtopic_unique st subject subtopic_name s) by done.
  eexists. split; [reflexivity |].
  rewrite <- list_fmap_compose.
  change ((fun u => (ObjectId_str (MicroUnit.id u), MicroUnit.name u,
                     MicroUnit.order u)) <$> units_of st s
          ≡ₚ (fun u => (ObjectId_str (MicroUnit.id u), MicroUnit.name u,
                        MicroUnit.order u))
             <$> List.filter
                   (fun u => ObjectId_eqb (MicroUnit.subtopic u) (SubTopic.id s)
                             && MicroUnit.v6_finalized u)
                   (db_micro_units st)).
  unfold units_of.
  rewrite sort_by_Permutation, select_units_filter. reflexivity.
Qed.

Lemma micro_units_lists_every_finalized_unit_witness :
  exists rows,
    outcome (micro_units_by_subtopic Fixture.store "History" "Ancient India")
    = Ok rows
    /\ (fun r => (MicroUnitJson.id r, MicroUnitJson.name r,
                  MicroUnitJson.order r)) <$> rows
       ≡ₚ [("64a000000000000000000021", "Mauryas", 2);
           ("64a000000000000000000022", "Guptas", 1)].
Proof.
  apply (micro_units_lists_every_finalized_unit Fixture.store
           "History" "Ancient India" Fixture.ancient_india
           fixture_indexes_hold).
  - left.
  - reflexivity.
  - reflexivity.
  - reflexivity.
Defined.

(** ** The notes flag against the notes route *)

Lemma select_micro_unit_unique st (u : MicroUnit.t) :
  indexes_hold st ->
  u ∈ db_micro_units st ->
  select MicroUnit_field (id_query (MicroUnit.id u)) (db_micro_units st) = [u].
Proof.
  intros Hidx Hin. unfold select.
  apply (filter_unique_member MicroUnit.id _ (MicroUnit.id u)).
  - intros d. apply matches_id_query.
  - apply (unique_micro_unit_ids st Hidx).
  - exact Hin.
  - by apply matches_id_query.
Qed.

Lemma select_note_unique st (n : MicroUnitNote.t) :
  indexes_hold st ->
  n ∈ db_micro_unit_notes st ->
  select MicroUnitNote_field (ref_query (MicroUnitNote.micro_unit n))
    (db_micro_unit_notes st) = [n].
Proof.
  intros Hidx Hin. unfold select.
  apply (filter_unique_member MicroUnitNote.micro_unit _
           (MicroUnitNote.micro_unit n)).
  - intros d. apply matches_note_ref.
  - apply (unique_note_refs st Hidx).
  - exact Hin.
  - by apply matches_note_ref.
Qed.

(** X5. [/notes] applies no publication gate and echoes the request: for a
    well-formed identifier of a stored micro-unit that a stored note
    references, it returns that note's content under the identifier text
    exactly as it was sent, whatever the stage flags of the unit and of the
    note, after one find on the micro-units and one on the notes. *)
Theorem note_served_verbatim (st : Store) (micro_unit_id : string)
    (u : MicroUnit.t) (n : MicroUnitNote.t) :
  indexes_hold st ->
  ObjectId_parse micro_unit_id = Some (MicroUnit.id u) ->
  u ∈ db_micro_units st ->
  n ∈ db_micro_unit_notes st ->
  MicroUnitNote.micro_unit n = MicroUnit.id u ->
  notes_by_micro_unit st micro_unit_id
  = (Ok (NoteJson.mk micro_unit_id (MicroUnitNote.content n)),
     [Find coll_micro_units [FEq "id" (QId (MicroUnit.id u))] None;
      Find coll_micro_unit_notes
        [FEq "micro_unit" (QId (MicroUnit.id u))] None]).
Proof.
  intros Hidx Hparse Hu Hn Href.
  rewrite notes_by_micro_unit_eq, Hparse.
  rewrite (select_micro_unit_unique st u Hidx Hu).
  rewrite <- Href, (select_note_unique st n Hidx Hn). reflexivity.
Qed.

Lemma note_served_verbatim_witness :
  notes_by_micro_unit Fixture.store "64A000000000000000000022"
  = (Ok (NoteJson.mk "64A000000000000000000022" "The Gupta empire"),
     [Find coll_micro_units [FEq "id" (QId Fixture.oid_guptas)] None;
      Find coll_micro_unit_notes
        [FEq "micro_unit" (QId Fixture.oid_guptas)] None]).
Proof.
  apply (note_served_verbatim Fixture.store "64A000000000000000000022"
           Fixture.guptas Fixture.guptas_note fixture_indexes_hold).
  - reflexivity.
  - right. left.
  - left.
  - reflexivity.
Defined.

(** X6. [/notes] resolves the micro-unit first: for a well-formed identifier
    that no stored micro-unit has, it raises the not-found exception after a
    single find on the micro-units, without looking at the notes, even when
    a note references that identifier. *)
Theorem note_needs_micro_unit (st : Store) (micro_unit_id : string)
    (oid : ObjectId) :
  ObjectId_parse micro_unit_id = Some oid ->
  (forall u, u ∈ db_micro_units st -> MicroUnit.id u <> oid) ->
  notes_by_micro_unit st micro_unit_id
  = (Raise DoesNotExist, [Find coll_micro_units [FEq "id" (QId oid)] None]).
Proof.
  intros Hparse Hnone. rewrite notes_by_micro_unit_eq, Hparse.
  rewrite select_nil; [reflexivity |].
  intros u Hu. apply not_true_is_false. rewrite matches_id_query.
  by apply Hnone.
Qed.

Lemma note_needs_micro_unit_witness :
  (Fixture.stray_note ∈ db_micro_unit_notes Fixture.store_dangling
   /\ MicroUnitNote.micro_unit Fixture.stray_note = Fixture.oid_missing)
  /\ notes_by_micro_unit Fixture.store_dangling "64a0000000000000000000ff"
     = (Raise DoesNotExist,
        [Find coll_micro_units [FEq "id" (QId Fixture.oid_missing)] None]).
Proof.
  split.
  - split; [right; left | reflexivity].
  - apply (note_needs_micro_unit Fixture.store_dangling
             "64a0000000000000000000ff" Fixture.oid_missing).
    + reflexivity.
    + intros u Hu. unfold Fixture.store_dangling in Hu. simpl in Hu.
      repeat (apply elem_of_cons in Hu as [-> | Hu]; [discriminate |]).
      by apply elem_of_nil in Hu.
Defined.

(** X4. The notes flag of a row of [/micro-units] tells what [/notes] will
    do with the id of that row (when the id is in canonical form, so that it
    parses back to itself): with has_notes set, [/notes/<id>] returns a body
    carrying that id; otherwise it raises the not-found exception. *)
Theorem has_notes_iff_note_fetchable (st : Store)
    (subject subtopic_name : string) (rows : list MicroUnitJson.t)
    (r : MicroUnitJson.t) :
  indexes_hold st ->
  outcome (micro_units_by_subtopic st subject subtopic_name) = Ok rows ->
  r ∈ rows ->
  ObjectId_parse (MicroUnitJson.id r) = Some (Oid (MicroUnitJson.id r)) ->
  match outcome (notes_by_micro_unit st (MicroUnitJson.id r)) with
  | Ok body =>
      MicroUnitJson.has_notes r = true
      /\ NoteJson.micro_unit_id body = MicroUnitJson.id r
  | Raise e => MicroUnitJson.has_notes r = false /\ e = DoesNotExist
  end.
Proof.
  intros Hidx. rewrite micro_units_by_subtopic_outcome.
  destruct (select _ _ _) as [| subtopic [| s' rest]]; [done | | done].
  intros [= <-] Hr. apply list_elem_of_fmap in Hr as (u & -> & Hu).
  pose proof Hu as Hstored.
  apply elem_of_units_of in Hstored as (Hstored & _ & _).
  pose proof (micro_unit_json_has_notes st _ u Hstored Hu) as Hflag.
  cbn [micro_unit_json MicroUnitJson.id].
  assert (Oid (ObjectId_str (MicroUnit.id u)) = MicroUnit.id u) as ->
    by (by destruct (MicroUnit.id u)).
  intros Hparse. rewrite notes_by_micro_unit_eq, Hparse.
  rewrite (select_micro_unit_unique st u Hidx Hstored). cbn [outcome fst].
  destruct (get_completes_or_not_found MicroUnitNote_field
              MicroUnitNote.micro_unit (MicroUnit.id u)
              (ref_query (MicroUnit.id u)) (db_micro_unit_notes st))
    as [Hnil | [n Hone]].
  - intros n. apply matches_note_ref.
  - apply (unique_note_refs st Hidx).
  - rewrite Hnil. split; [| reflexivity].
    apply not_true_is_false. intros Htrue.
    apply Hflag in Htrue as (n & Hn & Href).
    assert (n ∈ select MicroUnitNote_field (ref_query (MicroUnit.id u))
                  (db_micro_unit_notes st)) as Hin.
    { apply elem_of_select. split; [done | by apply matches_note_ref]. }
    rewrite Hnil in Hin. by apply elem_of_nil in Hin.
  - rewrite Hone. split; [| reflexivity].
    apply Hflag. exists n.
    assert (n ∈ select MicroUnitNote_field (ref_query (MicroUnit.id u))
                  (db_micro_unit_notes st)) as Hin by (rewrite Hone; left).
    apply elem_of_select in Hin as [Hin Hm].
    split; [done | by apply matches_note_ref].
Qed.

Lemma has_notes_iff_note_fetchable_witness :
  match outcome (notes_by_micro_unit Fixture.store "64a000000000000000000021")
  with
  | Ok body => false = true
               /\ NoteJson.micro_unit_id body = "64a000000000000000000021"
  | Raise e => false = false /\ e = DoesNotExist
  end.
Proof.
  apply (has_notes_iff_note_fetchable Fixture.store "History" "Ancient India"
           [MicroUnitJson.mk "64a000000000000000000022" "Guptas" 1 true;
            MicroUnitJson.mk "64a000000000000000000021" "Mauryas" 2 false]
           (MicroUnitJson.mk "64a000000000000000000021" "Mauryas" 2 false)
           fixture_indexes_hold).
  - vm_compute. reflexivity.
  - right. left.
  - reflexivity.
Defined.

(** X7. [/mcqs] validates the identifier inside the query: for a text that
    is not a well-formed identifier it raises mongoengine's ValidationError
    (where [/notes] raises bson's InvalidId) before anything is sent to the
    store, and the client receives status 500. *)
Theorem mcqs_malformed_id_raises_ValidationError (st : Store)
    (micro_unit_id : string) :
  ObjectId_parse micro_unit_id = None ->
  mcqs_by_micro_unit st micro_unit_id = (Raise ValidationError, [])
  /\ http_status (mcqs_by_micro_unit st micro_unit_id) = 500.
Proof.
  intros Hparse. rewrite mcqs_by_micro_unit_eq, Hparse. by split.
Qed.

Lemma mcqs_malformed_id_raises_ValidationError_witness :
  mcqs_by_micro_unit Fixture.store_mcq "64a0000000000000000000f"
  = (Raise ValidationError, [])
  /\ http_status (mcqs_by_micro_unit Fixture.store_mcq "64a0000000000000000000f")
     = 500.
Proof.
  apply (mcqs_malformed_id_raises_ValidationError Fixture.store_mcq
           "64a0000000000000000000f").
  reflexivity.
Defined.

(** ** Subtopic listings *)

(** X8. In every store and for every subject, [/subtopics] returns one row
    per subtopic of the subject, each with has_notes = false, and sends a
    single command to the subtopics collection: the reference [mu.subtopic]
    is never followed. *)
Theorem subtopics_flags_always_false (st : Store) (subject : string) :
  exists rows,
    outcome (subtopics_by_subject st subject) = Ok rows
    /\ List.length rows
       = List.length
           (List.filter (fun s => String.eqb (SubTopic.subject s) subject)
              (db_subtopics st))
    /\ Forall (fun r => SubtopicJson.has_notes r = false) rows
    /\ commands_on coll_subtopics (trace (subtopics_by_subject st subject))
       = [Find coll_subtopics [FEq "subject" (QStr subject)] None].
Proof.
  eexists. split; [apply subtopics_by_subject_outcome |]. split; [| split].
  - by rewrite length_fmap, select_subject_filter.
  - apply Forall_fmap, Forall_forall. by intros s _.
  - rewrite subtopics_by_subject_trace, noted_micro_units_trace.
    unfold commands_on. by destruct (noted_ids st _).
Qed.

(** X9. A subject that no stored document carries is not an error for the
    two listings keyed by subject alone, which return an empty body, but it
    is one for [/micro-units], which raises the not-found exception
    whatever subtopic name is asked for. *)
Theorem unknown_subject (st : Store) (subject : string) :
  (forall s, s ∈ db_subtopics st -> SubTopic.subject s <> subject) ->
  (forall d, d ∈ db_upsc_syllabus st -> UPSCSyllabus.subject d <> subject) ->
  outcome (syllabus_by_subject st subject) = Ok []
  /\ outcome (subtopics_by_subject st subject) = Ok []
  /\ forall subtopic_name,
       outcome (micro_units_by_subtopic st subject subtopic_name)
       = Raise DoesNotExist.
Proof.
  intros Hsub Hsyl. split; [| split].
  - unfold syllabus_by_subject. rewrite objects_eq, select_nil; [done |].
    intros d Hd. apply not_true_is_false. rewrite matches_syllabus_query.
    intros [Heq _]. by apply (Hsyl d Hd).
  - rewrite subtopics_by_subject_outcome. unfold subtopics_of.
    rewrite select_nil; [done |].
    intros s Hs. apply not_true_is_false. unfold matches, subject_query.
    simpl. rewrite andb_true_r.
    change (SubTopic_field s "subject")
      with (Some (QStr (SubTopic.subject s))).
    simpl. rewrite String.eqb_eq. by apply Hsub.
  - intros subtopic_name. rewrite micro_units_by_subtopic_outcome.
    rewrite select_nil; [done |].
    intros s Hs. apply not_true_is_false. rewrite matches_subtopic_query.
    intros (_ & Heq & _). by apply (Hsub s Hs).
Qed.

Lemma unknown_subject_witness :
  outcome (syllabus_by_subject Fixture.store "Geography") = Ok []
  /\ outcome (subtopics_by_subject Fixture.store "Geography") = Ok []
  /\ forall subtopic_name,
       outcome (micro_units_by_subtopic Fixture.store "Geography" subtopic_name)
       = Raise DoesNotExist.
Proof.
  apply (unknown_subject Fixture.store "Geography").
  - intros s Hs. unfold Fixture.store in Hs. simpl in Hs.
    apply list_elem_of_singleton in Hs. subst s. discriminate.
  - intros d Hd. unfold Fixture.store in Hd. simpl in Hd.
    apply list_elem_of_singleton in Hd. subst d. discriminate.
Defined.

(** ** The publication gate across routes *)

(** X10. The finalized gate of [/micro-units] does not extend to [/notes]:
    a stored micro-unit whose finalized flag is unset appears in no
    listing, yet the note that references it is returned to whoever asks
    for it by identifier. *)
Theorem unfinalized_unit_hidden_but_note_served (st : Store)
    (u : MicroUnit.t) (n : MicroUnitNote.t) (micro_unit_id : string) :
  indexes_hold st ->
  u ∈ db_micro_units st ->
  MicroUnit.v6_finalized u = false ->
  n ∈ db_micro_unit_notes st ->
  MicroUnitNote.micro_unit n = MicroUnit.id u ->
  ObjectId_parse micro_unit_id = Some (MicroUnit.id u) ->
  (forall subject subtopic_name rows,
     outcome (micro_units_by_subtopic st subject subtopic_name) = Ok rows ->
     ObjectId_str (MicroUnit.id u) ∉ MicroUnitJson.id <$> rows)
  /\ outcome (notes_by_micro_unit st micro_unit_id)
     = Ok (NoteJson.mk micro_unit_id (MicroUnitNote.content n)).
Proof.
  intros Hidx Hu Hdraft Hn Href Hparse. split.
  - intros subject subtopic_name rows.
    rewrite micro_units_by_subtopic_outcome.
    destruct (select _ _ _) as [| subtopic [| s' rest]]; [done | | done].
    intros [= <-] Hin.
    apply list_elem_of_fmap in Hin as (r & Hid & Hr).
    apply list_elem_of_fmap in Hr as (u' & -> & Hu').
    simpl in Hid. apply ObjectId_str_inj in Hid.
    apply elem_of_units_of in Hu' as (Hstored & _ & Hfin).
    assert (u' ∈ select MicroUnit_field (id_query (MicroUnit.id u))
                   (db_micro_units st)) as Hsel.
    { apply elem_of_select. split; [done |]. by apply matches_id_query. }
    rewrite (select_micro_unit_unique st u Hidx Hu) in Hsel.
    apply list_elem_of_singleton in Hsel. subst u'. congruence.
  - rewrite notes_by_micro_unit_eq, Hparse.
    rewrite (select_micro_unit_unique st u Hidx Hu).
    rewrite <- Href, (select_note_unique st n Hidx Hn). reflexivity.
Qed.

Lemma store_draft_indexes_hold : indexes_hold Fixture.store_draft.
Proof.
  split; apply (bool_decide_unpack _); vm_compute; exact I.
Qed.

Lemma unfinalized_unit_hidden_but_note_served_witness :
  (forall subject subtopic_name rows,
     outcome (micro_units_by_subtopic Fixture.store_draft subject subtopic_name)
     = Ok rows ->
     "64a000000000000000000024" ∉ MicroUnitJson.id <$> rows)
  /\ outcome (notes_by_micro_unit Fixture.store_draft "64a000000000000000000024")
     = Ok (NoteJson.mk "64a000000000000000000024" "Draft on Harsha").
Proof.
  apply (unfinalized_unit_hidden_but_note_served Fixture.store_draft
           Fixture.harsha Fixture.harsha_note "64a000000000000000000024"
           store_draft_indexes_hold).
  - right. right. left.
  - reflexivity.
  - right. left.
  - reflexivity.
  - reflexivity.
Defined.
